(** * The APT provisioner of packer-plugin-apt

    A shallow embedding of [provisioner/apt/config.go] (the [Config] record
    with [Config.Prepare]) and of the provisioner itself ([Provisioner.Provision]
    and the eight step methods it calls), followed by the properties the
    specification states about them.

    The provisioner is orchestration code: every step is a call into the
    local operating system ([os.Stat], [os.Open], [ioutil.TempDir],
    [exec.Command]), into the packer communicator ([Upload], [UploadDir],
    [DownloadDir], [RemoteCmd.RunWithUi]) or into the packer [Ui].  None of
    these live in the repository.  They are modelled as an oracle, the
    [World], which answers every call; the answer may depend on everything
    that happened before (the [history]).  A program is a function from the
    history so far to its result and the list of events it adds. *)

From Stdlib Require Import String Ascii List Bool Arith Lia.
Import ListNotations.
Local Open Scope list_scope.
Local Open Scope string_scope.

(** ** Go values *)

(** A Go [error] value.  Only two observations are ever made on it by the
    provisioner: its text ([%v] in a format string) and whether
    [os.IsNotExist] recognises it.  A nil [error] is [None]. *)
Record error : Type := mkError {
  error_Error : string;
  error_notExist : bool
}.

(** A Go call returning [(value, error)]. *)
Inductive result (A : Type) : Type :=
| Ok (a : A)
| Err (e : error).
Arguments Ok {A} a.
Arguments Err {A} e.

(** [os.IsNotExist(err)]; false on a nil error. *)
Definition os_IsNotExist (err : option error) : bool :=
  match err with
  | Some e => error_notExist e
  | None => false
  end.

(** [os.FileInfo], as far as it is looked at. *)
Record FileInfo : Type := mkFileInfo {
  fi_Name : string;
  fi_IsDir : bool
}.

(** An open [*os.File]. *)
Record File : Type := mkFile {
  file_name : string;
  file_fd : nat
}.

(** The [io.Reader] handed to [Communicator.Upload]: either
    [strings.NewReader(s)] or an open file. *)
Inductive reader : Type :=
| strings_NewReader (s : string)
| file_reader (f : File).

(** ** Go standard library functions on strings *)

(** [strings.Join(elems, sep)], following the library's code: the empty
    string for no element, the element itself for one, and otherwise the
    first element followed by [sep] and the next element, for each further
    element. *)
Definition strings_Join (elems : list string) (sep : string) : string :=
  match elems with
  | [] => ""
  | [e] => e
  | e :: rest => fold_left (fun b s => (b ++ sep) ++ s) rest e
  end.

(** The string ["\n"]. *)
Definition newline : string := String (ascii_of_nat 10) EmptyString.

Definition is_path_separator (c : ascii) : bool := Ascii.eqb c "/"%char.

(** Strip trailing slashes. *)
Fixpoint strip_trailing_separators (path : string) : string :=
  match path with
  | EmptyString => EmptyString
  | String c rest =>
      match strip_trailing_separators rest with
      | EmptyString => if is_path_separator c then EmptyString else String c EmptyString
      | rest' => String c rest'
      end
  end.

(** The part of [path] after its last separator ([path] itself when it has
    none); [cur] is the element read so far. *)
Fixpoint last_element (path cur : string) : string :=
  match path with
  | EmptyString => cur
  | String c rest =>
      if is_path_separator c then last_element rest EmptyString
      else last_element rest (cur ++ String c EmptyString)
  end.

(** [filepath.Base(path)] on a host whose separator is [/] and which has no
    volume names. *)
Definition filepath_Base (path : string) : string :=
  match path with
  | EmptyString => "."
  | _ =>
      match last_element (strip_trailing_separators path) EmptyString with
      | EmptyString => "/"
      | base => base
      end
  end.

(** ** Events, histories and the world *)

(** One call into the outside, with the answer it got.  Calls whose result
    the provisioner throws away ([Ui.Say], [Ui.Error], the deferred
    [f.Close()] and [os.RemoveAll]) carry no answer.

    [ui_Say] and [ui_Error] are the calls that the provisioner itself makes
    on the [Ui].  While a remote command runs, the packer SDK writes the
    output of the command to the same [Ui]; that is part of the
    [RunWithUi] call, inside the SDK, and is not recorded as events of its
    own. *)
Inductive event : Type :=
| ui_Say (message : string)
| ui_Error (message : string)
| os_Stat_ev (name : string) (r : result FileInfo)
| os_Open_ev (name : string) (r : result File)
| File_Stat_ev (f : File) (r : result FileInfo)
| File_Close_ev (f : File)
| ioutil_TempDir_ev (dir pattern : string) (r : result string)
| os_RemoveAll_ev (path : string)
| comm_UploadDir_ev (dst src : string) (exclude : list string) (r : option error)
| comm_DownloadDir_ev (src dst : string) (exclude : list string) (r : option error)
| comm_Upload_ev (dst : string) (src : reader) (fi : option FileInfo) (r : option error)
| RunWithUi_ev (command : string) (r : option error)
| exec_Run_ev (name : string) (args : list string) (r : option error).

Definition history : Type := list event.
Bind Scope list_scope with history.

(** The outside world: what each call answers after a given history. *)
Record World : Type := mkWorld {
  world_Stat : history -> string -> result FileInfo;
  world_Open : history -> string -> result File;
  world_FileStat : history -> File -> result FileInfo;
  world_TempDir : string;
  world_MkTempDir : history -> string -> string -> result string;
  world_UploadDir : history -> string -> string -> list string -> option error;
  world_DownloadDir : history -> string -> string -> list string -> option error;
  world_Upload : history -> string -> reader -> option FileInfo -> option error;
  world_RunWithUi : history -> string -> option error;
  world_ExecRun : history -> string -> list string -> option error
}.

(** ** Programs *)

(** A program reads the history so far and returns its result together
    with the events it appends. *)
Definition io (A : Type) : Type := history -> A * list event.

Definition ret {A : Type} (a : A) : io A := fun _ => (a, []).

Definition bind {A B : Type} (m : io A) (f : A -> io B) : io B :=
  fun h =>
    let (a, t1) := m h in
    let (b, t2) := f a (h ++ t1)%list in
    (b, (t1 ++ t2)%list).

Declare Scope io_scope.
Delimit Scope io_scope with io.
Notation "x <- m ;; k" := (bind m (fun x => k))
  (at level 61, m at next level, right associativity) : io_scope.
Notation "m ;; k" := (bind m (fun _ => k))
  (at level 61, right associativity) : io_scope.
Local Open Scope io_scope.

(** A call whose answer comes from the world and is recorded. *)
Definition call {A : Type} (answer : history -> A) (record : A -> event) : io A :=
  fun h => let r := answer h in (r, [record r]).

(** A call whose answer is thrown away. *)
Definition emit (e : event) : io unit := fun _ => (tt, [e]).

(** [defer cleanup] followed by [body]: the cleanup runs when the
    surrounding function returns, whatever it returns. *)
Definition defer {A : Type} (cleanup : io unit) (body : io A) : io A :=
  a <- body ;; cleanup ;; ret a.

(** ** config.go: the configuration *)

Record Config : Type := mkConfig {
  Packages : list string;
  Sources : list string;
  Keys : list string;
  CacheDir : string
}.

Section Prepare.

(** The raw template blocks handed to [Prepare], and [config.Decode] of the
    packer SDK, which fills the record in place and may fail. *)
Variable raw : Type.
Variable config_Decode : Config -> list raw -> Config * option error.

Definition Config_Prepare (c : Config) (raws : list raw) : Config * option error :=
  let (c, err) := config_Decode c raws in
  match err with
  | Some e => (c, Some e)
  | None =>
      let c :=
        if String.eqb (CacheDir c) ""
        then mkConfig (Packages c) (Sources c) (Keys c) "/var/cache/apt/archives"
        else c in
      (c, None)
  end.

End Prepare.

(** ** The provisioner *)

Record Provisioner : Type := mkProvisioner {
  config : Config
}.

Section Provision.

Variable w : World.

(** *** The calls the provisioner makes *)

Definition Say (message : string) : io unit := emit (ui_Say message).
Definition Error (message : string) : io unit := emit (ui_Error message).

Definition os_Stat (name : string) : io (result FileInfo) :=
  call (fun h => world_Stat w h name) (os_Stat_ev name).

Definition os_Open (name : string) : io (result File) :=
  call (fun h => world_Open w h name) (os_Open_ev name).

Definition File_Stat (f : File) : io (result FileInfo) :=
  call (fun h => world_FileStat w h f) (File_Stat_ev f).

Definition File_Close (f : File) : io unit := emit (File_Close_ev f).

Definition os_TempDir : string := world_TempDir w.

Definition ioutil_TempDir (dir pattern : string) : io (result string) :=
  call (fun h => world_MkTempDir w h dir pattern) (ioutil_TempDir_ev dir pattern).

Definition os_RemoveAll (path : string) : io unit := emit (os_RemoveAll_ev path).

Definition UploadDir (dst src : string) (exclude : list string) : io (option error) :=
  call (fun h => world_UploadDir w h dst src exclude) (comm_UploadDir_ev dst src exclude).

Definition DownloadDir (src dst : string) (exclude : list string) : io (option error) :=
  call (fun h => world_DownloadDir w h src dst exclude) (comm_DownloadDir_ev src dst exclude).

Definition Upload (dst : string) (src : reader) (fi : option FileInfo) : io (option error) :=
  call (fun h => world_Upload w h dst src fi) (comm_Upload_ev dst src fi).

(** [(&packer.RemoteCmd{Command: command}).RunWithUi(ctx, comm, ui)]: the
    command text and the error the call returns.  What the command prints,
    which the SDK streams to [ui], and its exit status, which the
    provisioner never reads, stay inside the call. *)
Definition RunWithUi (command : string) : io (option error) :=
  call (fun h => world_RunWithUi w h command) (RunWithUi_ev command).

(** [exec.Command(name, args...).Run()]. *)
Definition exec_Run (name : string) (args : list string) : io (option error) :=
  call (fun h => world_ExecRun w h name args) (exec_Run_ev name args).

(** *** The steps *)

Definition updateCache (p : Provisioner) : io (option error) :=
  r <- os_Stat (CacheDir (config p)) ;;
  match r with
  | Err e =>
      if os_IsNotExist (Some e) then
        Say "Skipping updating package cache, likely not running on a debian based host." ;;
        ret None
      else ret (Some e)
  | Ok _ =>
      r <- ioutil_TempDir os_TempDir "archives-" ;;
      match r with
      | Err e =>
          Error "APT cache update: failed to create tempdir" ;;
          ret (Some e)
      | Ok dir =>
          defer (os_RemoveAll dir) (
            err <- DownloadDir "/var/cache/apt/archives" dir [] ;;
            match err with
            | Some e =>
                Error ("APT cache update: failed to download archives to " ++ dir) ;;
                ret (Some e)
            | None =>
                err <- exec_Run "/bin/sh"
                         ["-c"; "mv -n " ++ dir ++ "/*.deb " ++ CacheDir (config p)] ;;
                match err with
                | Some e =>
                    Error ("APT cache update: mv: " ++ error_Error e) ;;
                    ret (Some e)
                | None => ret None
                end
            end)
      end
  end.

Definition uploadHostPackageCache (p : Provisioner) : io (option error) :=
  r <- os_Stat (CacheDir (config p)) ;;
  match r with
  | Err e =>
      if os_IsNotExist (Some e) then
        Say "Host APT package cache not found, likely not running on a debian based host. Proceeding regardless" ;;
        ret None
      else ret (Some e)
  | Ok cache =>
      if fi_IsDir cache then
        err <- UploadDir "/var/cache/apt/archives" (CacheDir (config p)) [] ;;
        match err with
        | Some e => ret (Some e)
        | None => ret None
        end
      else ret None
  end.

Definition trust_key_missing (key : string) : string :=
  "Package trust key '" ++ key ++
  "' doesn't exist, likely not running on a debian based host. Skipping transfer.".

(** The [for] loop of [uploadHostPackageTrust] over the keys still to
    visit.  [deferred] is the stack of [defer f.Close()] registered so far;
    the loop returns it with the value the function returns. *)
Fixpoint uploadHostPackageTrust_loop (keys : list string) (deferred : list File)
  : io (option error * list File) :=
  match keys with
  | [] => ret (None, deferred)
  | key :: keys' =>
      r <- os_Open key ;;
      match r with
      | Err e =>
          if os_IsNotExist (Some e) then
            Say (trust_key_missing key) ;;
            uploadHostPackageTrust_loop keys' deferred
          else ret (Some e, deferred)
      | Ok f =>
          let deferred := f :: deferred in
          r <- File_Stat f ;;
          match r with
          | Err e =>
              if os_IsNotExist (Some e) then
                Say (trust_key_missing key) ;;
                uploadHostPackageTrust_loop keys' deferred
              else ret (Some e, deferred)
          | Ok fi =>
              err <- Upload ("/etc/apt/trusted.gpg.d/" ++ filepath_Base key)
                       (file_reader f) (Some fi) ;;
              match err with
              | Some e =>
                  Error ("Failed to upload APT key " ++ key) ;;
                  ret (Some e, deferred)
              | None => uploadHostPackageTrust_loop keys' deferred
              end
          end
      end
  end.

(** The deferred calls run last registered first. *)
Fixpoint run_deferred (deferred : list File) : io unit :=
  match deferred with
  | [] => ret tt
  | f :: deferred' => File_Close f ;; run_deferred deferred'
  end.

Definition uploadHostPackageTrust (p : Provisioner) : io (option error) :=
  out <- uploadHostPackageTrust_loop (Keys (config p)) [] ;;
  run_deferred (snd out) ;;
  ret (fst out).

Definition uploadPackageList (p : Provisioner) : io (option error) :=
  let r := strings_NewReader (strings_Join (Sources (config p)) newline ++ newline) in
  err <- Upload "/etc/apt/sources.list.d/packer.list" r None ;;
  match err with
  | Some e => ret (Some e)
  | None => ret None
  end.

Definition updateRemotePackageIndex (p : Provisioner) : io (option error) :=
  err <- RunWithUi "/usr/bin/apt-get update" ;;
  match err with
  | Some e => ret (Some e)
  | None => ret None
  end.

Definition installRemotePackages (p : Provisioner) : io (option error) :=
  err <- RunWithUi
           ("DEBIAN_FRONTEND=noninteractive /usr/bin/apt-get install -y --no-install-recommends "
            ++ strings_Join (Packages (config p)) " ") ;;
  match err with
  | Some e => ret (Some e)
  | None => ret None
  end.

Definition testRemoteDNS (p : Provisioner) : io (option error) :=
  err <- RunWithUi
           ("/bin/sh -c 'for i in $(seq 100); do " ++
            "resolvectl query deb.debian.org >/dev/null && break; sleep 0.1; done; " ++
            "resolvectl query deb.debian.org'") ;;
  match err with
  | Some e => ret (Some e)
  | None => ret None
  end.

Definition cleanRemotePackages (p : Provisioner) : io (option error) :=
  err <- RunWithUi "/usr/bin/apt-get clean" ;;
  match err with
  | Some e => ret (Some e)
  | None => ret None
  end.

(** *** Provision

    The block guarded by [len(p.config.Sources) != 0] either returns from
    [Provision] with an error or falls through to the installation; it is
    written as a program whose result says which. *)

Definition Provision (p : Provisioner) : io (option error) :=
  Say "Provisioning with APT..." ;;
  err <- uploadHostPackageCache p ;;
  match err with
  | Some e =>
      Error ("Failed to upload APT cache from " ++ CacheDir (config p)) ;;
      ret (Some e)
  | None =>
  err <- uploadHostPackageTrust p ;;
  match err with
  | Some e => ret (Some e)
  | None =>
  err <- testRemoteDNS p ;;
  match err with
  | Some e =>
      Error "Failed waiting for domain name resolution" ;;
      ret (Some e)
  | None =>
  err <- (if negb (Nat.eqb (List.length (Sources (config p))) 0) then
             err <- uploadPackageList p ;;
             match err with
             | Some e =>
                 Error "Failed to upload APT package list" ;;
                 ret (Some e)
             | None =>
                 err <- updateRemotePackageIndex p ;;
                 match err with
                 | Some e =>
                     Error "apt-get update failed" ;;
                     ret (Some e)
                 | None => ret None
                 end
             end
          else ret None) ;;
  match err with
  | Some e => ret (Some e)
  | None =>
  err <- installRemotePackages p ;;
  match err with
  | Some e =>
      Error "apt-get install failed." ;;
      ret (Some e)
  | None =>
  err <- updateCache p ;;
  match err with
  | Some e => ret (Some e)
  | None =>
  err <- cleanRemotePackages p ;;
  match err with
  | Some e =>
      Error "apt-get clean failed, ignoring" ;;
      ret (Some e)
  | None => ret None
  end end end end end end end.

End Provision.

Section ProvisionerPrepare.

Variable raw : Type.
Variable config_Decode : Config -> list raw -> Config * option error.

(** [Provisioner.Prepare] hands the raw blocks to [Config.Prepare] of its
    configuration, which is filled in place. *)
Definition Provisioner_Prepare (p : Provisioner) (raws : list raw)
  : Provisioner * option error :=
  let (c, err) := Config_Prepare raw config_Decode (config p) raws in
  (mkProvisioner c, err).

End ProvisionerPrepare.

(** * Example inputs *)

(** A decoder for the examples: each raw block is a whole record, the last
    one wins, and a block without packages is refused. *)
Definition last_block_wins (c : Config) (raws : list Config) : Config * option error :=
  let c' := last raws c in
  match Packages c' with
  | [] => (c', Some (mkError "packages: required" false))
  | _ => (c', None)
  end.

(** A Debian build host on which everything succeeds: every path is a
    directory for [os.Stat], every file opens, and every transfer and
    command succeeds. *)
Definition debian_host : World :=
  mkWorld
    (fun _ name => Ok (mkFileInfo name true))
    (fun h name => Ok (mkFile name (3 + List.length h)))
    (fun _ f => Ok (mkFileInfo (file_name f) false))
    "/tmp"
    (fun _ dir pattern => Ok (dir ++ "/" ++ pattern ++ "042"))
    (fun _ _ _ _ => None)
    (fun _ _ _ _ => None)
    (fun _ _ _ _ => None)
    (fun _ _ => None)
    (fun _ _ _ => None).

Definition exit_status (n : string) : error := mkError ("exit status " ++ n) false.
Definition enoent (name : string) : error :=
  mkError (name ++ ": no such file or directory") true.
Definition eacces (name : string) : error :=
  mkError (name ++ ": permission denied") false.

(** The same world, except that the remote command [command] fails. *)
Definition failing_command (command : string) (w : World) : World :=
  mkWorld (world_Stat w) (world_Open w) (world_FileStat w) (world_TempDir w)
    (world_MkTempDir w) (world_UploadDir w) (world_DownloadDir w) (world_Upload w)
    (fun h c => if String.eqb c command then Some (exit_status "100")
                else world_RunWithUi w h c)
    (world_ExecRun w).

(** The same world, except that [path] does not exist locally. *)
Definition without_path (path : string) (w : World) : World :=
  mkWorld
    (fun h name => if String.eqb name path then Err (enoent name) else world_Stat w h name)
    (fun h name => if String.eqb name path then Err (enoent name) else world_Open w h name)
    (world_FileStat w) (world_TempDir w)
    (world_MkTempDir w) (world_UploadDir w) (world_DownloadDir w) (world_Upload w)
    (world_RunWithUi w) (world_ExecRun w).

(** The same world, except that [path] is a regular file. *)
Definition with_regular_file (path : string) (w : World) : World :=
  mkWorld
    (fun h name => if String.eqb name path then Ok (mkFileInfo name false)
                   else world_Stat w h name)
    (world_Open w) (world_FileStat w) (world_TempDir w)
    (world_MkTempDir w) (world_UploadDir w) (world_DownloadDir w) (world_Upload w)
    (world_RunWithUi w) (world_ExecRun w).

(** The same world, except that [path] cannot be read. *)
Definition with_unreadable (path : string) (w : World) : World :=
  mkWorld
    (fun h name => if String.eqb name path then Err (eacces name) else world_Stat w h name)
    (fun h name => if String.eqb name path then Err (eacces name) else world_Open w h name)
    (world_FileStat w) (world_TempDir w)
    (world_MkTempDir w) (world_UploadDir w) (world_DownloadDir w) (world_Upload w)
    (world_RunWithUi w) (world_ExecRun w).

(** The same world, except that downloading a directory fails. *)
Definition failing_download (w : World) : World :=
  mkWorld (world_Stat w) (world_Open w) (world_FileStat w) (world_TempDir w)
    (world_MkTempDir w) (world_UploadDir w)
    (fun _ _ _ _ => Some (mkError "download: connection lost" false))
    (world_Upload w) (world_RunWithUi w) (world_ExecRun w).

(** The same world, except that local commands fail. *)
Definition failing_exec (w : World) : World :=
  mkWorld (world_Stat w) (world_Open w) (world_FileStat w) (world_TempDir w)
    (world_MkTempDir w) (world_UploadDir w) (world_DownloadDir w)
    (world_Upload w) (world_RunWithUi w)
    (fun _ _ _ => Some (exit_status "1")).

(** The same world, except that no temporary directory can be made. *)
Definition failing_tempdir (w : World) : World :=
  mkWorld (world_Stat w) (world_Open w) (world_FileStat w) (world_TempDir w)
    (fun _ dir _ => Err (mkError (dir ++ ": no space left on device") false))
    (world_UploadDir w) (world_DownloadDir w)
    (world_Upload w) (world_RunWithUi w) (world_ExecRun w).

Definition curl_only : Provisioner :=
  mkProvisioner (mkConfig ["curl"] [] [] "/var/cache/apt/archives").

Definition bullseye : Provisioner :=
  mkProvisioner
    (mkConfig ["curl"; "ca-certificates"]
       ["deb http://deb.debian.org/debian bullseye main"]
       ["/usr/share/keyrings/debian.gpg"; "extra.gpg"]
       "/var/cache/apt/archives").

(** * The specification's view of a run *)

(** ** The key upload, path by path

    [trust_run keys t r]: [t] is what the key upload does on [keys], as the
    specification tells it, and [r] is what it returns.  The paths are
    visited in order.  A missing file ([os.IsNotExist] on the error of
    [os.Open], or of [Stat] on the open file) is reported with [Ui.Say] and
    the visit goes on.  A file that is there is uploaded under
    [/etc/apt/trusted.gpg.d/] with its base name.  Any other error ends
    the visit and is returned. *)
Inductive trust_run : list string -> list event -> option error -> Prop :=
| trust_done :
    trust_run [] [] None
| trust_missing key keys e t r :
    os_IsNotExist (Some e) = true ->
    trust_run keys t r ->
    trust_run (key :: keys)
      (os_Open_ev key (Err e) :: ui_Say (trust_key_missing key) :: t) r
| trust_vanished key keys f e t r :
    os_IsNotExist (Some e) = true ->
    trust_run keys t r ->
    trust_run (key :: keys)
      (os_Open_ev key (Ok f) :: File_Stat_ev f (Err e) ::
       ui_Say (trust_key_missing key) :: t) r
| trust_uploaded key keys f fi t r :
    trust_run keys t r ->
    trust_run (key :: keys)
      (os_Open_ev key (Ok f) :: File_Stat_ev f (Ok fi) ::
       comm_Upload_ev ("/etc/apt/trusted.gpg.d/" ++ filepath_Base key)
         (file_reader f) (Some fi) None :: t) r
| trust_open_error key keys e :
    os_IsNotExist (Some e) = false ->
    trust_run (key :: keys) [os_Open_ev key (Err e)] (Some e)
| trust_stat_error key keys f e :
    os_IsNotExist (Some e) = false ->
    trust_run (key :: keys)
      [os_Open_ev key (Ok f); File_Stat_ev f (Err e)] (Some e)
| trust_upload_error key keys f fi e :
    trust_run (key :: keys)
      [os_Open_ev key (Ok f); File_Stat_ev f (Ok fi);
       comm_Upload_ev ("/etc/apt/trusted.gpg.d/" ++ filepath_Base key)
         (file_reader f) (Some fi) (Some e);
       ui_Error ("Failed to upload APT key " ++ key)] (Some e).

(** The files a trace has opened, in the order it opened them. *)
Fixpoint opened_files (t : list event) : list File :=
  match t with
  | [] => []
  | os_Open_ev _ (Ok f) :: t' => f :: opened_files t'
  | _ :: t' => opened_files t'
  end.



(** ** The eight steps as a list

    The specification describes a run as a list of steps carried out in
    order until one fails.  [plan] is that list for a configuration, and
    [run_plan] carries a list of steps out. *)
Inductive step : Type :=
| upload_host_package_cache
| upload_trust_keys
| wait_for_dns
| upload_package_sources
| refresh_package_index
| install_packages
| update_host_cache
| clean_remote_cache.

Definition run_step (w : World) (p : Provisioner) (s : step) : io (option error) :=
  match s with
  | upload_host_package_cache => uploadHostPackageCache w p
  | upload_trust_keys => uploadHostPackageTrust w p
  | wait_for_dns => testRemoteDNS w p
  | upload_package_sources => uploadPackageList w p
  | refresh_package_index => updateRemotePackageIndex w p
  | install_packages => installRemotePackages w p
  | update_host_cache => updateCache w p
  | clean_remote_cache => cleanRemotePackages w p
  end.

(** Steps 4 and 5 are there only if [sources] is not empty. *)
Definition plan (p : Provisioner) : list step :=
  ([upload_host_package_cache; upload_trust_keys; wait_for_dns] ++
   match Sources (config p) with
   | [] => []
   | _ :: _ => [upload_package_sources; refresh_package_index]
   end ++
   [install_packages; update_host_cache; clean_remote_cache])%list.

(** Carry the steps out in order and stop at the first that fails; the
    result names that step and gives its error. *)
Fixpoint run_plan (w : World) (p : Provisioner) (steps : list step)
  : io (option (step * error)) :=
  match steps with
  | [] => ret None
  | s :: steps' =>
      err <- run_step w p s ;;
      match err with
      | Some e => ret (Some (s, e))
      | None => run_plan w p steps'
      end
  end.

(** What [Provision] itself tells the user when a step has failed. *)
Definition failure_message (p : Provisioner) (s : step) : option string :=
  match s with
  | upload_host_package_cache =>
      Some ("Failed to upload APT cache from " ++ CacheDir (config p))
  | upload_trust_keys => None
  | wait_for_dns => Some "Failed waiting for domain name resolution"
  | upload_package_sources => Some "Failed to upload APT package list"
  | refresh_package_index => Some "apt-get update failed"
  | install_packages => Some "apt-get install failed."
  | update_host_cache => None
  | clean_remote_cache => Some "apt-get clean failed, ignoring"
  end.

Definition failure_log (p : Provisioner) (failed : option (step * error)) : list event :=
  match failed with
  | Some (s, _) =>
      match failure_message p s with
      | Some message => [ui_Error message]
      | None => []
      end
  | None => []
  end.

(** ** Which step makes which call

    The remote paths and commands are fixed by the specification; the
    package list is the only part of a command that varies. *)
Definition dns_wait_command : string :=
  "/bin/sh -c 'for i in $(seq 100); do resolvectl query deb.debian.org >/dev/null && break; sleep 0.1; done; resolvectl query deb.debian.org'".

Definition install_command (p : Provisioner) : string :=
  "DEBIAN_FRONTEND=noninteractive /usr/bin/apt-get install -y --no-install-recommends "
  ++ String.concat " " (Packages (config p)).

Definition source_list_content (p : Provisioner) : string :=
  String.concat newline (Sources (config p)) ++ newline.

(** The upload of the source list, with its answer. *)
Definition source_list_uploaded (p : Provisioner) (r : option error) : event :=
  comm_Upload_ev "/etc/apt/sources.list.d/packer.list"
    (strings_NewReader (source_list_content p)) None r.

(** [may_emit p s e]: the event [e] is one that step [s] can add to a
    trace. *)
Definition may_emit (p : Provisioner) (s : step) (e : event) : bool :=
  match s, e with
  | upload_host_package_cache, (os_Stat_ev _ _ | ui_Say _ | comm_UploadDir_ev _ _ _ _) =>
      true
  | upload_trust_keys,
    (os_Open_ev _ _ | File_Stat_ev _ _ | File_Close_ev _ | ui_Say _ | ui_Error _) =>
      true
  | upload_trust_keys, comm_Upload_ev dst _ _ _ =>
      String.prefix "/etc/apt/trusted.gpg.d/" dst
  | wait_for_dns, RunWithUi_ev command _ =>
      String.eqb command dns_wait_command
  | upload_package_sources, comm_Upload_ev dst _ _ _ =>
      String.eqb dst "/etc/apt/sources.list.d/packer.list"
  | refresh_package_index, RunWithUi_ev command _ =>
      String.eqb command "/usr/bin/apt-get update"
  | install_packages, RunWithUi_ev command _ =>
      String.eqb command (install_command p)
  | update_host_cache,
    (os_Stat_ev _ _ | ui_Say _ | ui_Error _ | ioutil_TempDir_ev _ _ _ |
     os_RemoveAll_ev _ | comm_DownloadDir_ev _ _ _ _ | exec_Run_ev _ _ _) =>
      true
  | clean_remote_cache, RunWithUi_ev command _ =>
      String.eqb command "/usr/bin/apt-get clean"
  | _, _ => false
  end.

Definition emitted_by (p : Provisioner) (steps : list step) (e : event) : bool :=
  existsb (fun s => may_emit p s e) steps.

(** A message of [Provision] to the user. *)
Definition is_ui (e : event) : bool :=
  match e with
  | ui_Say _ | ui_Error _ => true
  | _ => false
  end.

Definition is_source_list_upload (e : event) : bool :=
  match e with
  | comm_Upload_ev dst _ _ _ => String.eqb dst "/etc/apt/sources.list.d/packer.list"
  | _ => false
  end.

Definition is_command (command : string) (e : event) : bool :=
  match e with
  | RunWithUi_ev c _ => String.eqb c command
  | _ => false
  end.

(** ** More views of a trace *)

(** The remote commands of a trace, in order. *)
Fixpoint commands_of (t : list event) : list string :=
  match t with
  | [] => []
  | RunWithUi_ev command _ :: t' => command :: commands_of t'
  | _ :: t' => commands_of t'
  end.

(** The remote commands a step issues. *)
Definition step_commands (p : Provisioner) (s : step) : list string :=
  match s with
  | wait_for_dns => [dns_wait_command]
  | refresh_package_index => ["/usr/bin/apt-get update"]
  | install_packages => [install_command p]
  | clean_remote_cache => ["/usr/bin/apt-get clean"]
  | upload_host_package_cache | upload_trust_keys
  | upload_package_sources | update_host_cache => []
  end.

(** The files a trace has closed, in order. *)
Fixpoint closed_files (t : list event) : list File :=
  match t with
  | [] => []
  | File_Close_ev f :: t' => f :: closed_files t'
  | _ :: t' => closed_files t'
  end.

(** The remote paths single files were uploaded to, in order. *)
Fixpoint upload_destinations (t : list event) : list string :=
  match t with
  | [] => []
  | comm_Upload_ev dst _ _ _ :: t' => dst :: upload_destinations t'
  | _ :: t' => upload_destinations t'
  end.

Definition is_ui_Error (e : event) : bool :=
  match e with
  | ui_Error _ => true
  | _ => false
  end.

Definition is_RemoveAll (e : event) : bool :=
  match e with
  | os_RemoveAll_ev _ => true
  | _ => false
  end.

(** The remote paths and commands of the provisioner: a call into the
    communicator is within them, and any other event is. *)
Definition within_remote_footprint (p : Provisioner) (e : event) : bool :=
  match e with
  | comm_UploadDir_ev dst src _ _ =>
      String.eqb dst "/var/cache/apt/archives" && String.eqb src (CacheDir (config p))
  | comm_DownloadDir_ev src _ _ _ =>
      String.eqb src "/var/cache/apt/archives"
  | comm_Upload_ev dst _ _ _ =>
      String.prefix "/etc/apt/trusted.gpg.d/" dst
      || String.eqb dst "/etc/apt/sources.list.d/packer.list"
  | RunWithUi_ev command _ =>
      String.eqb command dns_wait_command
      || String.eqb command "/usr/bin/apt-get update"
      || String.eqb command (install_command p)
      || String.eqb command "/usr/bin/apt-get clean"
  | _ => true
  end.

(** [removes_own_tempdir t]: wherever [t] removes a directory, it is one
    that [ioutil.TempDir] has returned earlier in [t]. *)
Definition removes_own_tempdir (t : list event) : Prop :=
  forall (pre post : list event) (dir : string),
    t = (pre ++ os_RemoveAll_ev dir :: post)%list ->
    exists parent pattern : string,
      In (ioutil_TempDir_ev parent pattern (Ok dir)) pre.

(** A path has no separator in it. *)
Fixpoint no_separator (name : string) : bool :=
  match name with
  | EmptyString => true
  | String c rest => negb (is_path_separator c) && no_separator rest
  end.

(** The local calls of the provisioner: [os.Stat] looks at the cache
    directory, [os.Open] opens a key, the temporary directory is made in
    [os.TempDir()] with the pattern [archives-], and the local command is
    the no-clobber move into the cache directory. *)
Definition within_local_footprint (w : World) (p : Provisioner) (e : event) : Prop :=
  match e with
  | os_Stat_ev name _ => name = CacheDir (config p)
  | os_Open_ev name _ => In name (Keys (config p))
  | ioutil_TempDir_ev dir pattern _ => dir = world_TempDir w /\ pattern = "archives-"
  | exec_Run_ev name args _ =>
      name = "/bin/sh" /\
      exists dir : string,
        args = ["-c"; "mv -n " ++ dir ++ "/*.deb " ++ CacheDir (config p)]
  | _ => True
  end.

(** What the key upload may call, for the keys it is given. *)
Definition key_upload_event (keys : list string) (e : event) : Prop :=
  match e with
  | os_Open_ev name _ => In name keys
  | comm_Upload_ev dst _ _ _ =>
      exists key : string,
        In key keys /\ dst = "/etc/apt/trusted.gpg.d/" ++ filepath_Base key
  | File_Stat_ev _ _ | File_Close_ev _ | ui_Say _ | ui_Error _ => True
  | _ => False
  end.

(** * Properties *)

(** Running a program symbolically: the next answer of the world, or the
    next test on an error, is split into its cases. *)
Ltac ask_world :=
  cbn;
  match goal with
  | |- context [match ?x with Ok _ => _ | Err _ => _ end] => destruct x eqn:?
  | |- context [match ?x with Some _ => _ | None => _ end] => destruct x eqn:?
  | |- context [if ?x then _ else _] => destruct x eqn:?
  end.

(** Going through the events of a concrete trace in search of one. *)
Ltac find_event H :=
  cbn in H;
  repeat match type of H with
         | _ \/ _ => destruct H as [H|H]; [try discriminate|]
         | False => contradiction
         end.


(** ** Strings *)

Lemma app_string_assoc (a b c : string) : (a ++ b) ++ c = a ++ (b ++ c).
Proof.
  induction a as [|x a IH]; simpl; [reflexivity|].
  now rewrite IH.
Qed.

Lemma app_string_empty (a : string) : a ++ "" = a.
Proof.
  induction a as [|x a IH]; simpl; [reflexivity|].
  now rewrite IH.
Qed.

Lemma concat_cons2 (sep x y : string) (l : list string) :
  String.concat sep (x :: y :: l) = x ++ sep ++ String.concat sep (y :: l).
Proof. reflexivity. Qed.

Lemma concat_empty_cons (x : string) (l : list string) :
  String.concat "" (x :: l) = x ++ String.concat "" l.
Proof.
  destruct l as [|y l]; [|reflexivity].
  simpl. now rewrite app_string_empty.
Qed.

(** What the builder loop of [strings.Join] has written once it has gone
    through [rest], having started from [b]. *)
Lemma Join_loop (sep : string) (rest : list string) :
  forall b,
    fold_left (fun b s => (b ++ sep) ++ s) rest b =
    b ++ String.concat "" (map (fun s => sep ++ s) rest).
Proof.
  induction rest as [|s rest IH]; intros b.
  - simpl. now rewrite app_string_empty.
  - cbn [fold_left map]. rewrite IH, concat_empty_cons.
    now rewrite !app_string_assoc.
Qed.

(** [strings.Join] computes the elements separated by [sep]. *)
Lemma strings_Join_concat (sep : string) (elems : list string) :
  strings_Join elems sep = String.concat sep elems.
Proof.
  destruct elems as [|e rest]; [reflexivity|].
  destruct rest as [|s rest]; [reflexivity|].
  unfold strings_Join. rewrite Join_loop.
  revert e s. induction rest as [|s' rest IH]; intros e s.
  - reflexivity.
  - rewrite concat_cons2, <- (IH s s').
    cbn [map]. now rewrite (concat_empty_cons (sep ++ s)), app_string_assoc.
Qed.

(** Joining with a separator and closing with it is the same as closing
    every element with it, as soon as there is an element. *)
Lemma concat_terminated (sep : string) (elems : list string) :
  elems <> [] ->
  String.concat sep elems ++ sep = String.concat "" (map (fun s => s ++ sep) elems).
Proof.
  induction elems as [|e rest IH]; intros Hne; [congruence|].
  destruct rest as [|s rest].
  - simpl. reflexivity.
  - rewrite concat_cons2. cbn [map]. rewrite concat_empty_cons.
    cbn [map] in IH. rewrite <- IH by congruence.
    now rewrite !app_string_assoc.
Qed.

Example strings_Join_three : strings_Join ["a"; "b"; "c"] ", " = "a, b, c".
Proof. reflexivity. Qed.

Example filepath_Base_absolute : filepath_Base "/usr/share/keyrings/debian.gpg" = "debian.gpg".
Proof. reflexivity. Qed.

Example filepath_Base_trailing : filepath_Base "keys/extra///" = "extra".
Proof. reflexivity. Qed.

Example filepath_Base_root : filepath_Base "//" = "/".
Proof. reflexivity. Qed.

(** ** Config.Prepare *)

(** C3: when decoding succeeds, [Prepare] returns no error; the
    [cache_dir] it leaves is [/var/cache/apt/archives] if decoding left it
    empty, and otherwise the whole record is as decoding left it. *)
Theorem Prepare_defaults_cache_dir :
  forall (raw : Type) (config_Decode : Config -> list raw -> Config * option error)
         (c : Config) (raws : list raw) (decoded : Config),
    config_Decode c raws = (decoded, None) ->
    exists c', Config_Prepare raw config_Decode c raws = (c', None) /\
      (CacheDir decoded = "" -> CacheDir c' = "/var/cache/apt/archives") /\
      (CacheDir decoded <> "" -> c' = decoded) /\
      Packages c' = Packages decoded /\
      Sources c' = Sources decoded /\
      Keys c' = Keys decoded.
Proof.
  intros raw config_Decode c raws decoded Hdec.
  unfold Config_Prepare. rewrite Hdec.
  destruct (String.eqb_spec (CacheDir decoded) "") as [Hempty|Hset].
  - eexists. split; [reflexivity|]. cbn. repeat split; try reflexivity.
    intros Hne. contradiction.
  - exists decoded. repeat split; try reflexivity.
    intros Hempty. contradiction.
Qed.

Lemma Prepare_defaults_cache_dir_witness :
  last_block_wins (mkConfig [] [] [] "") [mkConfig ["curl"] [] [] ""]
    = (mkConfig ["curl"] [] [] "", None) /\
  exists c', Config_Prepare Config last_block_wins (mkConfig [] [] [] "")
               [mkConfig ["curl"] [] [] ""] = (c', None) /\
    (CacheDir (mkConfig ["curl"] [] [] "") = "" -> CacheDir c' = "/var/cache/apt/archives") /\
    (CacheDir (mkConfig ["curl"] [] [] "") <> "" -> c' = mkConfig ["curl"] [] [] "") /\
    Packages c' = ["curl"] /\ Sources c' = [] /\ Keys c' = [].
Proof.
  split; [reflexivity|].
  apply (Prepare_defaults_cache_dir Config last_block_wins
           (mkConfig [] [] [] "") [mkConfig ["curl"] [] [] ""]
           (mkConfig ["curl"] [] [] "")).
  reflexivity.
Defined.

Example Prepare_keeps_cache_dir :
  Config_Prepare Config last_block_wins (mkConfig [] [] [] "")
    [mkConfig ["curl"] [] [] "/srv/apt"] = (mkConfig ["curl"] [] [] "/srv/apt", None).
Proof. reflexivity. Qed.

Example Prepare_decode_error :
  snd (Config_Prepare Config last_block_wins (mkConfig [] [] [] "") [])
    = Some (mkError "packages: required" false).
Proof. reflexivity. Qed.

(** ** The commands and the uploaded source list *)

(** A step that runs one remote command returns what the command
    returns. *)
Lemma command_step_run (w : World) (command : string) (h : history) :
  (err <- RunWithUi w command ;;
   match err with
   | Some e => ret (Some e)
   | None => ret None
   end) h =
    (world_RunWithUi w h command,
     [RunWithUi_ev command (world_RunWithUi w h command)]).
Proof.
  unfold bind, RunWithUi, call, ret.
  destruct (world_RunWithUi w h command); reflexivity.
Qed.

Lemma installRemotePackages_run (w : World) (p : Provisioner) (h : history) :
  installRemotePackages w p h =
    (world_RunWithUi w h (install_command p),
     [RunWithUi_ev (install_command p) (world_RunWithUi w h (install_command p))]).
Proof.
  unfold installRemotePackages. rewrite strings_Join_concat.
  apply command_step_run.
Qed.

Lemma uploadPackageList_run (w : World) (p : Provisioner) (h : history) :
  let answer :=
    world_Upload w h "/etc/apt/sources.list.d/packer.list"
      (strings_NewReader (source_list_content p)) None in
  uploadPackageList w p h =
    (answer,
     [comm_Upload_ev "/etc/apt/sources.list.d/packer.list"
        (strings_NewReader (source_list_content p)) None answer]).
Proof.
  intros answer. unfold uploadPackageList. rewrite strings_Join_concat.
  unfold bind, Upload, call, ret. fold (source_list_content p). fold answer.
  destruct answer; reflexivity.
Qed.

(** C7: the install step issues one remote command and nothing else; its
    text is the fixed prefix followed by the package names separated by
    single spaces, in the order of the configuration.  With no package the
    command is the prefix alone. *)
Theorem installRemotePackages_command :
  (forall (w : World) (p : Provisioner) (h : history),
     let command :=
       "DEBIAN_FRONTEND=noninteractive /usr/bin/apt-get install -y --no-install-recommends "
       ++ String.concat " " (Packages (config p)) in
     installRemotePackages w p h =
       (world_RunWithUi w h command, [RunWithUi_ev command (world_RunWithUi w h command)]))
  /\
  (forall (w : World) (sources keys : list string) (dir : string) (h : history),
     let command :=
       "DEBIAN_FRONTEND=noninteractive /usr/bin/apt-get install -y --no-install-recommends " in
     installRemotePackages w (mkProvisioner (mkConfig [] sources keys dir)) h =
       (world_RunWithUi w h command, [RunWithUi_ev command (world_RunWithUi w h command)])).
Proof.
  split.
  - intros w p h. exact (installRemotePackages_run w p h).
  - intros w sources keys dir h.
    exact (installRemotePackages_run w (mkProvisioner (mkConfig [] sources keys dir)) h).
Qed.

Example install_curl :
  installRemotePackages debian_host curl_only [] =
    (None,
     [RunWithUi_ev
        "DEBIAN_FRONTEND=noninteractive /usr/bin/apt-get install -y --no-install-recommends curl"
        None]).
Proof. reflexivity. Qed.

(** C4: with at least one source, the source-list step uploads to
    [/etc/apt/sources.list.d/packer.list], and does nothing else; the
    content is the sources joined by a newline with one newline after the
    last, that is, every source followed by a newline. *)
Theorem uploadPackageList_content :
  forall (w : World) (p : Provisioner) (h : history),
    Sources (config p) <> [] ->
    let content := String.concat newline (Sources (config p)) ++ newline in
    let answer :=
      world_Upload w h "/etc/apt/sources.list.d/packer.list"
        (strings_NewReader content) None in
    uploadPackageList w p h =
      (answer,
       [comm_Upload_ev "/etc/apt/sources.list.d/packer.list"
          (strings_NewReader content) None answer])
    /\ content = String.concat "" (map (fun s => s ++ newline) (Sources (config p))).
Proof.
  intros w p h Hne content answer. split.
  - exact (uploadPackageList_run w p h).
  - apply concat_terminated. exact Hne.
Qed.

Lemma uploadPackageList_content_witness :
  Sources (config bullseye) <> [] /\
  uploadPackageList debian_host bullseye [] =
    (None,
     [comm_Upload_ev "/etc/apt/sources.list.d/packer.list"
        (strings_NewReader
           ("deb http://deb.debian.org/debian bullseye main" ++ newline))
        None None]).
Proof.
  split; [discriminate|].
  exact (proj1 (uploadPackageList_content debian_host bullseye []
                  ltac:(discriminate))).
Defined.

(** ** The host package cache *)

(** C8: when [os.Stat] says that the cache directory does not exist, the
    cache upload and the cache update both end after that one look at the
    file system and one message to the user, and return no error. *)
Theorem absent_cache_dir_skips :
  forall (w : World) (p : Provisioner) (h1 h7 : history) (e1 e7 : error),
    world_Stat w h1 (CacheDir (config p)) = Err e1 ->
    os_IsNotExist (Some e1) = true ->
    world_Stat w h7 (CacheDir (config p)) = Err e7 ->
    os_IsNotExist (Some e7) = true ->
    uploadHostPackageCache w p h1 =
      (None,
       [os_Stat_ev (CacheDir (config p)) (Err e1);
        ui_Say "Host APT package cache not found, likely not running on a debian based host. Proceeding regardless"])
    /\
    updateCache w p h7 =
      (None,
       [os_Stat_ev (CacheDir (config p)) (Err e7);
        ui_Say "Skipping updating package cache, likely not running on a debian based host."]).
Proof.
  intros w p h1 h7 e1 e7 Hstat1 Hne1 Hstat7 Hne7. split.
  - unfold uploadHostPackageCache, bind, os_Stat, call.
    rewrite Hstat1, Hne1. reflexivity.
  - unfold updateCache, bind, os_Stat, call.
    rewrite Hstat7, Hne7. reflexivity.
Qed.

Lemma absent_cache_dir_skips_witness :
  uploadHostPackageCache (without_path "/var/cache/apt/archives" debian_host) curl_only [] =
    (None,
     [os_Stat_ev "/var/cache/apt/archives" (Err (enoent "/var/cache/apt/archives"));
      ui_Say "Host APT package cache not found, likely not running on a debian based host. Proceeding regardless"])
  /\
  updateCache (without_path "/var/cache/apt/archives" debian_host) curl_only
    [ui_Say "Provisioning with APT..."] =
    (None,
     [os_Stat_ev "/var/cache/apt/archives" (Err (enoent "/var/cache/apt/archives"));
      ui_Say "Skipping updating package cache, likely not running on a debian based host."]).
Proof.
  apply (absent_cache_dir_skips
           (without_path "/var/cache/apt/archives" debian_host) curl_only
           [] [ui_Say "Provisioning with APT..."]
           (enoent "/var/cache/apt/archives") (enoent "/var/cache/apt/archives"));
    reflexivity.
Defined.

(** What [Provision] does once the cache upload has returned no error: the
    key upload runs next, on the history the cache upload leaves. *)
Lemma Provision_after_cache (w : World) (p : Provisioner) (h : history)
      (t1 : list event) :
  uploadHostPackageCache w p (h ++ [ui_Say "Provisioning with APT..."])%list = (None, t1) ->
  exists (r : option error) (rest : list event),
    Provision w p h =
      (r, (ui_Say "Provisioning with APT..." :: t1 ++
           snd (uploadHostPackageTrust w p
                  ((h ++ [ui_Say "Provisioning with APT..."]) ++ t1)) ++ rest)%list).
Proof.
  intros Hcache. unfold Provision.
  unfold bind at 1. cbn [Say emit].
  unfold bind at 1. rewrite Hcache.
  unfold bind at 1.
  destruct (uploadHostPackageTrust w p ((h ++ [ui_Say "Provisioning with APT..."]) ++ t1)%list)
    as [[e|] t2].
  - exists (Some e), []. cbn. now rewrite !app_nil_r.
  - match goal with
    | |- context [let (b, t) := ?m ?hist in _] => destruct (m hist) as [r rest]
    end.
    exists r, rest. cbn. reflexivity.
Qed.

(** C10: when the cache directory path names something that is not a
    directory, the cache upload looks at it and does nothing more; it
    returns no error, and [Provision] goes on with the key upload. *)
Theorem cache_dir_not_a_directory :
  forall (w : World) (p : Provisioner) (h : history) (cache : FileInfo),
    world_Stat w (h ++ [ui_Say "Provisioning with APT..."])%list (CacheDir (config p)) = Ok cache ->
    fi_IsDir cache = false ->
    let h1 := (h ++ [ui_Say "Provisioning with APT..."])%list in
    let looked := os_Stat_ev (CacheDir (config p)) (Ok cache) in
    uploadHostPackageCache w p h1 = (None, [looked])
    /\
    exists (r : option error) (rest : list event),
      Provision w p h =
        (r, (ui_Say "Provisioning with APT..." :: looked ::
             snd (uploadHostPackageTrust w p (h1 ++ [looked])%list) ++ rest)%list).
Proof.
  intros w p h cache Hstat Hdir h1 looked.
  assert (Hcache : uploadHostPackageCache w p h1 = (None, [looked])).
  { unfold uploadHostPackageCache, bind, os_Stat, call, h1.
    rewrite Hstat, Hdir. reflexivity. }
  split; [exact Hcache|].
  destruct (Provision_after_cache w p h [looked] Hcache) as (r & rest & Hrun).
  exists r, rest. exact Hrun.
Qed.

Lemma cache_dir_not_a_directory_witness :
  uploadHostPackageCache (with_regular_file "/var/cache/apt/archives" debian_host)
    curl_only [ui_Say "Provisioning with APT..."] =
    (None, [os_Stat_ev "/var/cache/apt/archives"
              (Ok (mkFileInfo "/var/cache/apt/archives" false))]).
Proof.
  exact (proj1 (cache_dir_not_a_directory
                  (with_regular_file "/var/cache/apt/archives" debian_host)
                  curl_only [] (mkFileInfo "/var/cache/apt/archives" false)
                  eq_refl eq_refl)).
Defined.

(** C9: in the cache update, once [ioutil.TempDir] has returned a
    directory, the last thing the step does, whatever it returns, is to
    remove that directory. *)
Theorem updateCache_removes_tempdir :
  forall (w : World) (p : Provisioner) (h : history)
         (r : option error) (t : list event) (parent pattern dir : string),
    updateCache w p h = (r, t) ->
    In (ioutil_TempDir_ev parent pattern (Ok dir)) t ->
    exists before : list event,
      t = (before ++ [os_RemoveAll_ev dir])%list /\
      In (ioutil_TempDir_ev parent pattern (Ok dir)) before /\
      ~ In (os_RemoveAll_ev dir) before.
Proof.
  intros w p h r t parent pattern dir.
  unfold updateCache, defer, bind, os_Stat, ioutil_TempDir, DownloadDir, exec_Run,
    os_RemoveAll, Say, Error, call, emit, ret.
  repeat ask_world.
  all: cbn; intros Hrun Hin; injection Hrun as <- <-.
  all: find_event Hin.
  all: injection Hin as <- <- <-.
  all: match goal with
       | |- exists before, ?l = _ /\ _ => exists (removelast l)
       end; cbn; split; [reflexivity|split; [auto|intros H; find_event H]].
Qed.

Lemma updateCache_removes_tempdir_witness :
  exists before : list event,
    snd (updateCache (failing_download debian_host) curl_only []) =
      (before ++ [os_RemoveAll_ev "/tmp/archives-042"])%list /\
    In (ioutil_TempDir_ev "/tmp" "archives-" (Ok "/tmp/archives-042")) before /\
    ~ In (os_RemoveAll_ev "/tmp/archives-042") before.
Proof.
  apply (updateCache_removes_tempdir (failing_download debian_host) curl_only []
           (fst (updateCache (failing_download debian_host) curl_only []))
           (snd (updateCache (failing_download debian_host) curl_only []))
           "/tmp" "archives-" "/tmp/archives-042").
  - reflexivity.
  - cbn. right. left. reflexivity.
Defined.

Example updateCache_download_fails :
  updateCache (failing_download debian_host) curl_only [] =
    (Some (mkError "download: connection lost" false),
     [os_Stat_ev "/var/cache/apt/archives" (Ok (mkFileInfo "/var/cache/apt/archives" true));
      ioutil_TempDir_ev "/tmp" "archives-" (Ok "/tmp/archives-042");
      comm_DownloadDir_ev "/var/cache/apt/archives" "/tmp/archives-042" []
        (Some (mkError "download: connection lost" false));
      ui_Error "APT cache update: failed to download archives to /tmp/archives-042";
      os_RemoveAll_ev "/tmp/archives-042"]).
Proof. reflexivity. Qed.

Example updateCache_move_fails :
  updateCache (failing_exec debian_host) curl_only [] =
    (Some (exit_status "1"),
     [os_Stat_ev "/var/cache/apt/archives" (Ok (mkFileInfo "/var/cache/apt/archives" true));
      ioutil_TempDir_ev "/tmp" "archives-" (Ok "/tmp/archives-042");
      comm_DownloadDir_ev "/var/cache/apt/archives" "/tmp/archives-042" [] None;
      exec_Run_ev "/bin/sh"
        ["-c"; "mv -n /tmp/archives-042/*.deb /var/cache/apt/archives"]
        (Some (exit_status "1"));
      ui_Error "APT cache update: mv: exit status 1";
      os_RemoveAll_ev "/tmp/archives-042"]).
Proof. reflexivity. Qed.

(** ** The trust keys *)

(** The result and the trace of a program that has been run to its end
    are the ones to describe. *)
Ltac pick_run :=
  match goal with
  | |- exists r t, (?a, ?d, ?tr) = _ /\ _ => exists a, tr
  end.

Lemma run_deferred_closes (deferred : list File) (h : history) :
  run_deferred deferred h = (tt, map File_Close_ev deferred).
Proof.
  revert h. induction deferred as [|f deferred IH]; intros h; [reflexivity|].
  cbn [run_deferred]. unfold bind, File_Close, emit.
  rewrite IH. reflexivity.
Qed.

(** The loop follows the specification, and leaves on the stack of
    deferred calls the files it has opened, last opened first. *)
Lemma uploadHostPackageTrust_loop_run (w : World) (keys : list string) :
  forall (deferred : list File) (h : history),
  exists (r : option error) (t : list event),
    uploadHostPackageTrust_loop w keys deferred h =
      ((r, rev (opened_files t) ++ deferred)%list, t) /\
    trust_run keys t r.
Proof.
  induction keys as [|key keys IH]; intros deferred h.
  - exists None, []. split; [reflexivity|constructor].
  - cbn [uploadHostPackageTrust_loop].
    unfold bind at 1. unfold os_Open, call.
    destruct (world_Open w h key) as [f|e] eqn:Hopen.
    + unfold bind at 1. unfold File_Stat, call.
      match goal with
      | |- context [world_FileStat w ?hist f] =>
          destruct (world_FileStat w hist f) as [fi|e] eqn:Hstat
      end.
      * unfold bind at 1. unfold Upload, call.
        match goal with
        | |- context [world_Upload w ?hist ?dst ?src ?i] =>
            destruct (world_Upload w hist dst src i) as [e|] eqn:Hup
        end.
        -- unfold bind, Error, emit, ret. cbn [app].
           pick_run. split; [reflexivity|]. constructor.
        -- match goal with
           | |- context [uploadHostPackageTrust_loop w keys ?d ?hist] =>
               destruct (IH d hist) as (r & t & Hloop & Hrun); rewrite Hloop
           end.
           cbn [app].
           pick_run. split; [|apply trust_uploaded; exact Hrun].
           cbn [opened_files rev]. rewrite <- app_assoc. reflexivity.
      * destruct (os_IsNotExist (Some e)) eqn:Hne.
        -- unfold bind at 1. unfold Say, emit.
           match goal with
           | |- context [uploadHostPackageTrust_loop w keys ?d ?hist] =>
               destruct (IH d hist) as (r & t & Hloop & Hrun); rewrite Hloop
           end.
           cbn [app].
           pick_run. split; [|apply trust_vanished; [exact Hne|exact Hrun]].
           cbn [opened_files rev]. rewrite <- app_assoc. reflexivity.
        -- unfold ret. cbn [app].
           pick_run. split; [reflexivity|]. constructor. exact Hne.
    + destruct (os_IsNotExist (Some e)) eqn:Hne.
      * unfold bind at 1. unfold Say, emit.
        match goal with
        | |- context [uploadHostPackageTrust_loop w keys ?d ?hist] =>
            destruct (IH d hist) as (r & t & Hloop & Hrun); rewrite Hloop
        end.
        cbn [app].
        pick_run. split; [|apply trust_missing; [exact Hne|exact Hrun]].
        reflexivity.
      * unfold ret. cbn [app].
        pick_run. split; [reflexivity|]. constructor. exact Hne.
Qed.


(** The key upload as a whole: the loop, then the deferred calls. *)
Lemma uploadHostPackageTrust_run (w : World) (p : Provisioner) (h : history) :
  exists (r : option error) (t : list event),
    uploadHostPackageTrust w p h =
      (r, (t ++ map File_Close_ev (rev (opened_files t)))%list) /\
    trust_run (Keys (config p)) t r.
Proof.
  unfold uploadHostPackageTrust.
  destruct (uploadHostPackageTrust_loop_run w (Keys (config p)) [] h)
    as (r & t & Hloop & Hrun).
  exists r, t. split; [|exact Hrun].
  unfold bind at 1. rewrite Hloop.
  unfold bind. rewrite run_deferred_closes.
  cbn [fst snd ret]. now rewrite !app_nil_r.
Qed.

(** *** The base name of a key *)

Lemma last_element_plain (name : string) :
  no_separator name = true ->
  forall cur, last_element name cur = cur ++ name.
Proof.
  induction name as [|c name IH]; intros Hname cur.
  - cbn. now rewrite app_string_empty.
  - cbn in Hname. apply andb_true_iff in Hname. destruct Hname as [Hc Hname].
    cbn [last_element]. apply negb_true_iff in Hc. rewrite Hc.
    rewrite (IH Hname), app_string_assoc. reflexivity.
Qed.

Lemma last_element_after_separator (dir name : string) :
  forall cur, last_element (dir ++ String "/" name) cur = last_element name "".
Proof.
  induction dir as [|c dir IH]; intros cur; [reflexivity|].
  cbn [append last_element]. destruct (is_path_separator c); apply IH.
Qed.

Lemma strip_trailing_separators_cons (c : ascii) (s : string) :
  s <> "" ->
  strip_trailing_separators s = s ->
  strip_trailing_separators (String c s) = String c s.
Proof.
  intros Hne Hs. cbn [strip_trailing_separators]. rewrite Hs.
  destruct s; [contradiction|reflexivity].
Qed.

Lemma strip_trailing_separators_plain (name : string) :
  name <> "" ->
  no_separator name = true ->
  strip_trailing_separators name = name.
Proof.
  induction name as [|c name IH]; intros Hne Hname; [contradiction|].
  cbn in Hname. apply andb_true_iff in Hname. destruct Hname as [Hc Hname].
  destruct name as [|c' name].
  - cbn. apply negb_true_iff in Hc. now rewrite Hc.
  - apply strip_trailing_separators_cons; [discriminate|].
    apply IH; [discriminate|exact Hname].
Qed.

Lemma strip_trailing_separators_before (a name : string) :
  name <> "" ->
  no_separator name = true ->
  strip_trailing_separators (a ++ name) = a ++ name.
Proof.
  intros Hne Hname. induction a as [|c a IH].
  - exact (strip_trailing_separators_plain name Hne Hname).
  - cbn [append]. apply strip_trailing_separators_cons; [|exact IH].
    destruct a; [exact Hne|discriminate].
Qed.

(** The base name of [dir/name] is [name], for a [name] that is not empty
    and has no separator. *)
Lemma filepath_Base_in_directory (dir name : string) :
  name <> "" ->
  no_separator name = true ->
  filepath_Base (dir ++ String "/" name) = name.
Proof.
  intros Hne Hname. unfold filepath_Base.
  assert (Hpath : strip_trailing_separators (dir ++ String "/" name)
                  = dir ++ String "/" name).
  { change (String "/" name) with ("/" ++ name).
    rewrite <- app_string_assoc.
    exact (strip_trailing_separators_before (dir ++ "/") name Hne Hname). }
  rewrite Hpath, last_element_after_separator, (last_element_plain name Hname).
  cbn [append].
  destruct dir; destruct name; try contradiction; reflexivity.
Qed.

(** *** The key upload against the world *)







(** The world decides: the second key is missing in this world and is
    skipped; it is uploaded in a world that has it. *)
Example uploadHostPackageTrust_missing_or_there :
  upload_destinations
    (snd (uploadHostPackageTrust (without_path "extra.gpg" debian_host) bullseye []))
    = ["/etc/apt/trusted.gpg.d/debian.gpg"] /\
  upload_destinations (snd (uploadHostPackageTrust debian_host bullseye []))
    = ["/etc/apt/trusted.gpg.d/debian.gpg"; "/etc/apt/trusted.gpg.d/extra.gpg"].
Proof. split; reflexivity. Qed.

Example uploadHostPackageTrust_one_missing :
  uploadHostPackageTrust (without_path "extra.gpg" debian_host) bullseye [] =
    (None,
     [os_Open_ev "/usr/share/keyrings/debian.gpg"
        (Ok (mkFile "/usr/share/keyrings/debian.gpg" 3));
      File_Stat_ev (mkFile "/usr/share/keyrings/debian.gpg" 3)
        (Ok (mkFileInfo "/usr/share/keyrings/debian.gpg" false));
      comm_Upload_ev "/etc/apt/trusted.gpg.d/debian.gpg"
        (file_reader (mkFile "/usr/share/keyrings/debian.gpg" 3))
        (Some (mkFileInfo "/usr/share/keyrings/debian.gpg" false)) None;
      os_Open_ev "extra.gpg" (Err (enoent "extra.gpg"));
      ui_Say "Package trust key 'extra.gpg' doesn't exist, likely not running on a debian based host. Skipping transfer.";
      File_Close_ev (mkFile "/usr/share/keyrings/debian.gpg" 3)]).
Proof. reflexivity. Qed.

Example uploadHostPackageTrust_unreadable :
  uploadHostPackageTrust (with_unreadable "/usr/share/keyrings/debian.gpg" debian_host)
    bullseye [] =
    (Some (eacces "/usr/share/keyrings/debian.gpg"),
     [os_Open_ev "/usr/share/keyrings/debian.gpg"
        (Err (eacces "/usr/share/keyrings/debian.gpg"))]).
Proof. reflexivity. Qed.

(** ** Provision, step by step *)

Lemma bind_run {A B : Type} (m : io A) (f : A -> io B) (h : history) :
  bind m f h =
    (let (a, t1) := m h in
     let (b, t2) := f a (h ++ t1)%list in
     (b, (t1 ++ t2)%list)).
Proof. reflexivity. Qed.

Lemma run_plan_cons (w : World) (p : Provisioner) (s : step) (steps : list step)
      (h : history) :
  run_plan w p (s :: steps) h =
    (let (err, t1) := run_step w p s h in
     match err with
     | Some e => (Some (s, e), t1)
     | None =>
         let (failed, t2) := run_plan w p steps (h ++ t1)%list in
         (failed, (t1 ++ t2)%list)
     end).
Proof.
  cbn [run_plan]. rewrite bind_run.
  destruct (run_step w p s h) as [[e|] t1]; [|reflexivity].
  unfold ret. now rewrite app_nil_r.
Qed.

(** One step of [Provision] against one step of the plan. *)
Ltac provision_step :=
  rewrite run_plan_cons; cbn [run_step]; rewrite bind_run;
  match goal with
  | |- context [let (_, _) := ?m ?hist in _] =>
      destruct (m hist) as [[?e|] ?t]
  end;
  [ unfold bind, Error, emit, ret;
    cbn [app option_map snd failure_log failure_message];
    rewrite ?app_nil_r, <- ?app_assoc; reflexivity
  | cbv beta iota ].

Ltac provision_done :=
  cbn [run_plan]; unfold ret;
  cbn [app option_map snd failure_log];
  rewrite ?app_nil_r, <- ?app_assoc; reflexivity.

(** [Provision] carries out the plan of the configuration: it returns the
    error of the first step that fails, and adds its own message to what
    the steps did. *)
Lemma Provision_runs_plan (w : World) (p : Provisioner) (h : history) :
  Provision w p h =
    (let (failed, t) := run_plan w p (plan p) (h ++ [ui_Say "Provisioning with APT..."])%list in
     (option_map snd failed,
      (ui_Say "Provisioning with APT..." :: t ++ failure_log p failed)%list)).
Proof.
  unfold Provision, plan.
  rewrite bind_run. cbn [Say emit app].
  set (h0 := (h ++ [ui_Say "Provisioning with APT..."])%list).
  provision_step. provision_step. provision_step.
  destruct (Sources (config p)) as [|source sources];
    cbn [List.length Nat.eqb negb app].
  - rewrite bind_run. unfold ret at 1. cbv beta iota. rewrite app_nil_r.
    provision_step. provision_step. provision_step.
    provision_done.
  - rewrite bind_run.
    provision_step. provision_step.
    unfold ret at 1. cbv beta iota. rewrite ?app_nil_r, ?app_assoc.
    provision_step. provision_step. provision_step.
    provision_done.
Qed.

Lemma run_plan_app (w : World) (p : Provisioner) (steps1 steps2 : list step) :
  forall h : history,
    run_plan w p (steps1 ++ steps2)%list h =
      (let (failed, t1) := run_plan w p steps1 h in
       match failed with
       | Some f => (Some f, t1)
       | None =>
           let (failed2, t2) := run_plan w p steps2 (h ++ t1)%list in
           (failed2, (t1 ++ t2)%list)
       end).
Proof.
  induction steps1 as [|s steps1 IH]; intros h.
  - cbn [app run_plan]. unfold ret. rewrite app_nil_r.
    destruct (run_plan w p steps2 h); reflexivity.
  - cbn [app]. rewrite !run_plan_cons.
    destruct (run_step w p s h) as [[e|] t]; [reflexivity|].
    rewrite IH.
    destruct (run_plan w p steps1 (h ++ t)%list) as [[f|] t1]; [reflexivity|].
    rewrite app_assoc.
    destruct (run_plan w p steps2 ((h ++ t) ++ t1)%list) as [failed2 t2].
    now rewrite app_assoc.
Qed.

(** The general form of the claim on the first failure: if the steps
    before [s] succeed and [s] fails, [Provision] returns the error of [s]
    and has done what these steps did and nothing after, except for its
    message to the user. *)
Lemma Provision_first_failure (w : World) (p : Provisioner) (h : history)
      (before after : list step) (s : step) (e : error)
      (t_before t_s : list event) :
  plan p = (before ++ s :: after)%list ->
  run_plan w p before (h ++ [ui_Say "Provisioning with APT..."])%list = (None, t_before) ->
  run_step w p s ((h ++ [ui_Say "Provisioning with APT..."]) ++ t_before)%list
    = (Some e, t_s) ->
  Provision w p h =
    (Some e,
     (ui_Say "Provisioning with APT..." :: t_before ++ t_s ++
      failure_log p (Some (s, e)))%list).
Proof.
  intros Hplan Hbefore Hs.
  rewrite Provision_runs_plan, Hplan, run_plan_app, Hbefore, run_plan_cons, Hs.
  cbn [option_map snd]. now rewrite <- app_assoc.
Qed.

(** C2: when a step other than the final cleanup is the first to fail,
    [Provision] returns the error of that step.  What it has done is
    what the steps before did, then what the failing step did, then at
    most one error message to the user: no call of a later step. *)
Theorem Provision_stops_at_first_failure :
  forall (w : World) (p : Provisioner) (h : history)
         (before after : list step) (s : step) (e : error)
         (t_before t_s : list event),
    plan p = (before ++ s :: after)%list ->
    run_plan w p before (h ++ [ui_Say "Provisioning with APT..."])%list = (None, t_before) ->
    run_step w p s ((h ++ [ui_Say "Provisioning with APT..."]) ++ t_before)%list
      = (Some e, t_s) ->
    s <> clean_remote_cache ->
    Provision w p h =
      (Some e,
       (ui_Say "Provisioning with APT..." :: t_before ++ t_s ++
        failure_log p (Some (s, e)))%list)
    /\ forallb is_ui (failure_log p (Some (s, e))) = true.
Proof.
  intros w p h before after s e t_before t_s Hplan Hbefore Hs _.
  split.
  - exact (Provision_first_failure w p h before after s e t_before t_s
             Hplan Hbefore Hs).
  - destruct s; reflexivity.
Qed.

Lemma Provision_stops_at_first_failure_witness :
  Provision (failing_command dns_wait_command debian_host) bullseye [] =
    (Some (exit_status "100"),
     [ui_Say "Provisioning with APT...";
      os_Stat_ev "/var/cache/apt/archives" (Ok (mkFileInfo "/var/cache/apt/archives" true));
      comm_UploadDir_ev "/var/cache/apt/archives" "/var/cache/apt/archives" [] None;
      os_Open_ev "/usr/share/keyrings/debian.gpg"
        (Ok (mkFile "/usr/share/keyrings/debian.gpg" 6));
      File_Stat_ev (mkFile "/usr/share/keyrings/debian.gpg" 6)
        (Ok (mkFileInfo "/usr/share/keyrings/debian.gpg" false));
      comm_Upload_ev "/etc/apt/trusted.gpg.d/debian.gpg"
        (file_reader (mkFile "/usr/share/keyrings/debian.gpg" 6))
        (Some (mkFileInfo "/usr/share/keyrings/debian.gpg" false)) None;
      os_Open_ev "extra.gpg" (Ok (mkFile "extra.gpg" 9));
      File_Stat_ev (mkFile "extra.gpg" 9) (Ok (mkFileInfo "extra.gpg" false));
      comm_Upload_ev "/etc/apt/trusted.gpg.d/extra.gpg"
        (file_reader (mkFile "extra.gpg" 9))
        (Some (mkFileInfo "extra.gpg" false)) None;
      File_Close_ev (mkFile "extra.gpg" 9);
      File_Close_ev (mkFile "/usr/share/keyrings/debian.gpg" 6);
      RunWithUi_ev dns_wait_command (Some (exit_status "100"));
      ui_Error "Failed waiting for domain name resolution"]).
Proof.
  exact (proj1 (Provision_stops_at_first_failure
                  (failing_command dns_wait_command debian_host) bullseye []
                  [upload_host_package_cache; upload_trust_keys]
                  [upload_package_sources; refresh_package_index;
                   install_packages; update_host_cache; clean_remote_cache]
                  wait_for_dns (exit_status "100")
                  _ _ eq_refl eq_refl eq_refl ltac:(discriminate))).
Defined.

(** C1 (what the code does): every step succeeds and the final
    [apt-get clean] fails; [Provision] tells the user that it ignores the
    failure and returns it all the same. *)
Theorem Provision_returns_cleanup_failure :
  Provision (failing_command "/usr/bin/apt-get clean" debian_host) curl_only [] =
    (Some (exit_status "100"),
     [ui_Say "Provisioning with APT...";
      os_Stat_ev "/var/cache/apt/archives" (Ok (mkFileInfo "/var/cache/apt/archives" true));
      comm_UploadDir_ev "/var/cache/apt/archives" "/var/cache/apt/archives" [] None;
      RunWithUi_ev dns_wait_command None;
      RunWithUi_ev
        "DEBIAN_FRONTEND=noninteractive /usr/bin/apt-get install -y --no-install-recommends curl"
        None;
      os_Stat_ev "/var/cache/apt/archives" (Ok (mkFileInfo "/var/cache/apt/archives" true));
      ioutil_TempDir_ev "/tmp" "archives-" (Ok "/tmp/archives-042");
      comm_DownloadDir_ev "/var/cache/apt/archives" "/tmp/archives-042" [] None;
      exec_Run_ev "/bin/sh"
        ["-c"; "mv -n /tmp/archives-042/*.deb /var/cache/apt/archives"] None;
      os_RemoveAll_ev "/tmp/archives-042";
      RunWithUi_ev "/usr/bin/apt-get clean" (Some (exit_status "100"));
      ui_Error "apt-get clean failed, ignoring"]).
Proof. reflexivity. Qed.

(** The same in every world: a failure of the cleanup, once the steps
    before it have succeeded, is returned. *)
Lemma Provision_cleanup_failure_is_returned (w : World) (p : Provisioner) (h : history)
      (before : list step) (e : error) (t_before t_clean : list event) :
  plan p = (before ++ [clean_remote_cache])%list ->
  run_plan w p before (h ++ [ui_Say "Provisioning with APT..."])%list = (None, t_before) ->
  cleanRemotePackages w p ((h ++ [ui_Say "Provisioning with APT..."]) ++ t_before)%list
    = (Some e, t_clean) ->
  Provision w p h =
    (Some e,
     (ui_Say "Provisioning with APT..." :: t_before ++ t_clean ++
      [ui_Error "apt-get clean failed, ignoring"])%list).
Proof.
  intros Hplan Hbefore Hclean.
  exact (Provision_first_failure w p h before [] clean_remote_cache e
           t_before t_clean Hplan Hbefore Hclean).
Qed.

(** ** Which calls a run can contain *)

Lemma prefix_app (a b : string) : String.prefix a (a ++ b) = true.
Proof.
  induction a as [|x a IH]; cbn.
  - now destruct b.
  - destruct (ascii_dec x x) as [_|Hne]; [exact IH|contradiction].
Qed.

Lemma trust_run_emits (p : Provisioner) (keys : list string) (t : list event)
      (r : option error) :
  trust_run keys t r ->
  Forall (fun e => may_emit p upload_trust_keys e = true) t.
Proof.
  induction 1; repeat constructor; try assumption;
    cbn [may_emit]; apply prefix_app.
Qed.

(** Every step adds only events of its own kind. *)
Lemma step_emits (w : World) (p : Provisioner) (s : step) (h : history) :
  Forall (fun e => may_emit p s e = true) (snd (run_step w p s h)).
Proof.
  destruct s; cbn [run_step].
  - unfold uploadHostPackageCache, bind, os_Stat, UploadDir, Say, call, emit, ret.
    repeat ask_world. all: cbn; repeat constructor.
  - destruct (uploadHostPackageTrust_run w p h) as (r & t & Heq & Hrun).
    rewrite Heq. cbn [snd]. apply Forall_app. split.
    + exact (trust_run_emits p _ _ _ Hrun).
    + apply Forall_forall. intros e He. apply in_map_iff in He.
      destruct He as (f & <- & _). reflexivity.
  - unfold testRemoteDNS. rewrite command_step_run. repeat constructor.
  - rewrite uploadPackageList_run. repeat constructor.
  - unfold updateRemotePackageIndex. rewrite command_step_run. repeat constructor.
  - rewrite installRemotePackages_run. repeat constructor.
    cbn [may_emit]. apply String.eqb_refl.
  - unfold updateCache, defer, bind, os_Stat, ioutil_TempDir, DownloadDir, exec_Run,
      os_RemoveAll, Say, Error, call, emit, ret.
    repeat ask_world. all: cbn; repeat constructor.
  - unfold cleanRemotePackages. rewrite command_step_run. repeat constructor.
Qed.

Lemma run_plan_emits (w : World) (p : Provisioner) (steps : list step) :
  forall h : history,
    Forall (fun e => emitted_by p steps e = true) (snd (run_plan w p steps h)).
Proof.
  induction steps as [|s steps IH]; intros h; [constructor|].
  rewrite run_plan_cons.
  pose proof (step_emits w p s h) as Hs.
  destruct (run_step w p s h) as [[e|] t]; cbn [snd] in Hs.
  - cbn [snd]. eapply Forall_impl; [|exact Hs].
    intros ev Hev. unfold emitted_by. cbn [existsb]. now rewrite Hev.
  - specialize (IH (h ++ t)%list).
    destruct (run_plan w p steps (h ++ t)%list) as [failed t2]. cbn [snd] in *.
    apply Forall_app. split.
    + eapply Forall_impl; [|exact Hs].
      intros ev Hev. unfold emitted_by. cbn [existsb]. now rewrite Hev.
    + eapply Forall_impl; [|exact IH].
      intros ev Hev. unfold emitted_by in *. cbn [existsb]. rewrite Hev.
      apply orb_true_r.
Qed.

Lemma may_emit_not_install (p : Provisioner) (s : step) (e : event) :
  may_emit p s e = true ->
  s <> install_packages ->
  is_command (install_command p) e = false.
Proof.
  intros He Hs.
  destruct s; try congruence; destruct e; try reflexivity; try discriminate;
    cbn [may_emit] in He; apply String.eqb_eq in He; subst command; reflexivity.
Qed.

Lemma may_emit_not_sources (p : Provisioner) (s : step) (e : event) :
  may_emit p s e = true ->
  s <> upload_package_sources ->
  s <> refresh_package_index ->
  is_source_list_upload e = false /\ is_command "/usr/bin/apt-get update" e = false.
Proof.
  intros He Hs1 Hs2.
  destruct s; try congruence; destruct e; try (split; reflexivity); try discriminate;
    cbn [may_emit] in He.
  - split; [|reflexivity]. cbn [is_source_list_upload].
    destruct (String.eqb_spec dst "/etc/apt/sources.list.d/packer.list") as [->|_];
      [discriminate He|reflexivity].
  - apply String.eqb_eq in He. subst command. split; reflexivity.
  - apply String.eqb_eq in He. subst command. split; reflexivity.
  - apply String.eqb_eq in He. subst command. split; reflexivity.
Qed.

Lemma emitted_by_elim (p : Provisioner) (steps : list step) (P : event -> Prop)
      (t : list event) :
  (forall s e, In s steps -> may_emit p s e = true -> P e) ->
  Forall (fun e => emitted_by p steps e = true) t ->
  Forall P t.
Proof.
  intros Hsteps Ht. eapply Forall_impl; [|exact Ht].
  intros e He. unfold emitted_by in He. apply existsb_exists in He.
  destruct He as (s & Hin & He). exact (Hsteps s e Hin He).
Qed.

(** In a list with a single marked element, the part before the marked
    element is determined. *)
Lemma split_at_marked {A : Type} (marked : A -> bool) (a b : list A) (x : A) :
  Forall (fun e => marked e = false) a ->
  Forall (fun e => marked e = false) b ->
  forall (pre post : list A) (y : A),
    marked y = true ->
    (a ++ x :: b)%list = (pre ++ y :: post)%list ->
    pre = a.
Proof.
  intros Ha Hb. induction Ha as [|a0 a Ha0 Ha IH]; intros pre post y Hy Heq.
  - destruct pre as [|z pre]; [reflexivity|].
    cbn in Heq. injection Heq as _ Heq.
    rewrite Forall_forall in Hb.
    rewrite (Hb y) in Hy; [discriminate|]. rewrite Heq. apply in_elt.
  - destruct pre as [|z pre]; cbn in Heq; injection Heq as Hz Heq.
    + subst a0. congruence.
    + subst z. f_equal. exact (IH pre post y Hy Heq).
Qed.

Lemma no_marked_element {A : Type} (marked : A -> bool) (l pre post : list A) (y : A) :
  Forall (fun e => marked e = false) l ->
  marked y = true ->
  l = (pre ++ y :: post)%list ->
  False.
Proof.
  intros Hl Hy Heq. rewrite Forall_forall in Hl.
  rewrite (Hl y) in Hy; [discriminate|]. rewrite Heq. apply in_elt.
Qed.

(** ** The sources gate *)

(** Without sources, no run uploads a source list or refreshes the
    index. *)
Lemma Provision_without_sources (w : World) (p : Provisioner) (h : history) :
  Sources (config p) = [] ->
  Forall (fun e => is_source_list_upload e = false /\
                   is_command "/usr/bin/apt-get update" e = false)
    (snd (Provision w p h)).
Proof.
  intros Hsrc. rewrite Provision_runs_plan. unfold plan. rewrite Hsrc.
  cbn [app].
  match goal with
  | |- context [run_plan w p ?steps ?h0] =>
      pose proof (run_plan_emits w p steps h0) as Ht;
      destruct (run_plan w p steps h0) as [failed t]
  end.
  cbn [snd] in *. constructor; [split; reflexivity|].
  apply Forall_app. split.
  - eapply emitted_by_elim; [|exact Ht].
    intros s e Hin He. apply (may_emit_not_sources p s e He).
    + cbn in Hin. intuition congruence.
    + cbn in Hin. intuition congruence.
  - destruct failed as [[s e]|]; [|constructor].
    unfold failure_log. destruct (failure_message p s); repeat constructor.
Qed.

(** A trace as a list nested to the right. *)
Ltac trace_normal :=
  cbn [snd option_map]; rewrite <- ?app_assoc; cbn [app].

Lemma failure_log_quiet (p : Provisioner) (failed : option (step * error))
      (marked : event -> bool) :
  (forall m, marked (ui_Error m) = false) ->
  Forall (fun e => marked e = false) (failure_log p failed).
Proof.
  intros Hui. destruct failed as [[s e]|]; [|constructor].
  unfold failure_log. destruct (failure_message p s); repeat constructor.
  apply Hui.
Qed.

(** With sources, once the first three steps have succeeded: the source
    list is uploaded; if that succeeds the index is refreshed; if that
    succeeds the packages are installed.  The install command appears
    nowhere else. *)
Lemma Provision_with_sources (w : World) (p : Provisioner) (h : history)
      (t3 : list event) :
  Sources (config p) <> [] ->
  run_plan w p [upload_host_package_cache; upload_trust_keys; wait_for_dns]
    (h ++ [ui_Say "Provisioning with APT..."])%list = (None, t3) ->
  Forall (fun e => is_command (install_command p) e = false) t3 /\
  exists (r4 : option error) (rest4 : list event),
    snd (Provision w p h) =
      (ui_Say "Provisioning with APT..." :: t3 ++ source_list_uploaded p r4 :: rest4)%list /\
    match r4 with
    | Some _ => Forall (fun e => is_command (install_command p) e = false) rest4
    | None =>
        exists (r5 : option error) (rest5 : list event),
          rest4 = RunWithUi_ev "/usr/bin/apt-get update" r5 :: rest5 /\
          match r5 with
          | Some _ => Forall (fun e => is_command (install_command p) e = false) rest5
          | None =>
              exists (r6 : option error) (rest6 : list event),
                rest5 = RunWithUi_ev (install_command p) r6 :: rest6 /\
                Forall (fun e => is_command (install_command p) e = false) rest6
          end
    end.
Proof.
  intros Hsrc H3. split.
  { pose proof (run_plan_emits w p _ (h ++ [ui_Say "Provisioning with APT..."])%list
                  : Forall _ (snd (run_plan w p
                       [upload_host_package_cache; upload_trust_keys; wait_for_dns] _)))
      as Ht.
    rewrite H3 in Ht. cbn [snd] in Ht.
    eapply emitted_by_elim; [|exact Ht].
    intros s e Hin He. apply (may_emit_not_install p s e He).
    cbn in Hin. intuition congruence. }
  rewrite Provision_runs_plan. unfold plan.
  destruct (Sources (config p)) as [|source sources]; [congruence|].
  rewrite run_plan_app, H3.
  cbn [app]. rewrite run_plan_cons. cbn [run_step].
  rewrite uploadPackageList_run. cbv zeta.
  fold (source_list_uploaded p).
  match goal with
  | |- context [world_Upload w ?hist ?dst ?src ?fi] =>
      destruct (world_Upload w hist dst src fi) as [e4|]
  end.
  { trace_normal.
    exists (Some e4). eexists. split; [reflexivity|]. repeat constructor. }
  rewrite run_plan_cons. cbn [run_step].
  unfold updateRemotePackageIndex. rewrite command_step_run.
  match goal with
  | |- context [world_RunWithUi w ?hist ?c] =>
      destruct (world_RunWithUi w hist c) as [e5|]
  end.
  { trace_normal.
    exists None. eexists. split; [reflexivity|].
    exists (Some e5). eexists. split; [reflexivity|]. repeat constructor. }
  rewrite run_plan_cons. cbn [run_step].
  rewrite installRemotePackages_run.
  match goal with
  | |- context [match world_RunWithUi w ?hist ?c with _ => _ end] =>
      destruct (world_RunWithUi w hist c) as [e6|]
  end.
  { trace_normal.
    exists None. eexists. split; [reflexivity|].
    exists None. eexists. split; [reflexivity|].
    exists (Some e6). eexists. split; [reflexivity|]. repeat constructor. }
  match goal with
  | |- context [run_plan w p ?steps ?h0] =>
      pose proof (run_plan_emits w p steps h0) as Ht;
      destruct (run_plan w p steps h0) as [failed t]
  end.
  cbn [snd] in Ht. trace_normal.
  exists None. eexists. split; [reflexivity|].
  exists None. eexists. split; [reflexivity|].
  exists None. eexists. split; [reflexivity|].
  apply Forall_app. split.
  - eapply emitted_by_elim; [|exact Ht].
    intros s e Hin He. apply (may_emit_not_install p s e He).
    cbn in Hin. intuition congruence.
  - apply failure_log_quiet. reflexivity.
Qed.

(** C5: the sources gate.  Without sources no run uploads a source list
    or issues [apt-get update].  With sources, wherever a run issues the
    install command, the two events just before it are the upload of the
    source list and [apt-get update], both successful; and once the first
    three steps have succeeded the run goes on with the upload, then, if
    it succeeds, the refresh, then, if it succeeds, the installation. *)
Theorem sources_gate_upload_and_refresh :
  forall (w : World) (p : Provisioner) (h : history),
    (Sources (config p) = [] ->
     Forall (fun e => is_source_list_upload e = false /\
                      is_command "/usr/bin/apt-get update" e = false)
       (snd (Provision w p h)))
    /\
    (Sources (config p) <> [] ->
     forall (pre post : list event) (r : option error),
       snd (Provision w p h) = (pre ++ RunWithUi_ev (install_command p) r :: post)%list ->
       exists pre' : list event,
         pre = (pre' ++ [source_list_uploaded p None;
                         RunWithUi_ev "/usr/bin/apt-get update" None])%list)
    /\
    (Sources (config p) <> [] ->
     forall t3 : list event,
       run_plan w p [upload_host_package_cache; upload_trust_keys; wait_for_dns]
         (h ++ [ui_Say "Provisioning with APT..."])%list = (None, t3) ->
       exists (r4 : option error) (rest4 : list event),
         snd (Provision w p h) =
           (ui_Say "Provisioning with APT..." :: t3 ++
            source_list_uploaded p r4 :: rest4)%list /\
         (r4 = None ->
          exists (r5 : option error) (rest5 : list event),
            rest4 = RunWithUi_ev "/usr/bin/apt-get update" r5 :: rest5 /\
            (r5 = None ->
             exists (r6 : option error) (rest6 : list event),
               rest5 = RunWithUi_ev (install_command p) r6 :: rest6))).
Proof.
  intros w p h. split; [|split].
  - exact (Provision_without_sources w p h).
  - intros Hsrc pre post r Heq.
    assert (Hmark : is_command (install_command p)
                      (RunWithUi_ev (install_command p) r) = true)
      by apply String.eqb_refl.
    destruct (run_plan w p [upload_host_package_cache; upload_trust_keys; wait_for_dns]
                (h ++ [ui_Say "Provisioning with APT..."])%list) as [[f|] t3] eqn:H3.
    + exfalso.
      pose proof (run_plan_emits w p
                    [upload_host_package_cache; upload_trust_keys; wait_for_dns]
                    (h ++ [ui_Say "Provisioning with APT..."])%list) as Ht.
      rewrite H3 in Ht. cbn [snd] in Ht.
      rewrite Provision_runs_plan in Heq. unfold plan in Heq.
      rewrite run_plan_app, H3 in Heq. cbn [snd option_map] in Heq.
      refine (no_marked_element _ _ _ _ _ _ Hmark Heq).
      constructor; [reflexivity|]. apply Forall_app. split.
      * eapply emitted_by_elim; [|exact Ht].
        intros s e Hin He. apply (may_emit_not_install p s e He).
        cbn in Hin. intuition congruence.
      * apply failure_log_quiet. reflexivity.
    + destruct (Provision_with_sources w p h t3 Hsrc H3)
        as (Hq3 & r4 & rest4 & HT & Hcase).
      rewrite HT in Heq.
      destruct r4 as [e4|].
      { exfalso. refine (no_marked_element _ _ _ _ _ _ Hmark Heq).
        constructor; [reflexivity|]. apply Forall_app. split; [exact Hq3|].
        constructor; [reflexivity|exact Hcase]. }
      destruct Hcase as (r5 & rest5 & -> & Hcase).
      destruct r5 as [e5|].
      { exfalso. refine (no_marked_element _ _ _ _ _ _ Hmark Heq).
        constructor; [reflexivity|]. apply Forall_app. split; [exact Hq3|].
        constructor; [reflexivity|]. constructor; [reflexivity|exact Hcase]. }
      destruct Hcase as (r6 & rest6 & -> & Hq6).
      exists (ui_Say "Provisioning with APT..." :: t3).
      refine (split_at_marked (is_command (install_command p)) _ rest6
                (RunWithUi_ev (install_command p) r6) _ Hq6 pre post _ Hmark _).
      * constructor; [reflexivity|]. apply Forall_app. split; [exact Hq3|].
        repeat constructor.
      * rewrite <- Heq. cbn [app]. rewrite <- app_assoc. reflexivity.
  - intros Hsrc t3 H3.
    destruct (Provision_with_sources w p h t3 Hsrc H3)
      as (_ & r4 & rest4 & HT & Hcase).
    exists r4, rest4. split; [exact HT|].
    intros ->. destruct Hcase as (r5 & rest5 & -> & Hcase).
    exists r5, rest5. split; [reflexivity|].
    intros ->. destruct Hcase as (r6 & rest6 & -> & _).
    exists r6, rest6. reflexivity.
Qed.

Lemma sources_gate_upload_and_refresh_witness :
  Sources (config bullseye) <> [] /\
  exists pre' : list event,
    firstn 14 (snd (Provision debian_host bullseye [])) =
      (pre' ++ [source_list_uploaded bullseye None;
                RunWithUi_ev "/usr/bin/apt-get update" None])%list.
Proof.
  split; [discriminate|].
  apply (proj1 (proj2 (sources_gate_upload_and_refresh debian_host bullseye []))
           ltac:(discriminate)
           (firstn 14 (snd (Provision debian_host bullseye [])))
           (skipn 15 (snd (Provision debian_host bullseye [])))
           None).
  reflexivity.
Defined.

Example Provision_curl_only :
  Provision debian_host curl_only [] =
    (None,
     [ui_Say "Provisioning with APT...";
      os_Stat_ev "/var/cache/apt/archives" (Ok (mkFileInfo "/var/cache/apt/archives" true));
      comm_UploadDir_ev "/var/cache/apt/archives" "/var/cache/apt/archives" [] None;
      RunWithUi_ev dns_wait_command None;
      RunWithUi_ev
        "DEBIAN_FRONTEND=noninteractive /usr/bin/apt-get install -y --no-install-recommends curl"
        None;
      os_Stat_ev "/var/cache/apt/archives" (Ok (mkFileInfo "/var/cache/apt/archives" true));
      ioutil_TempDir_ev "/tmp" "archives-" (Ok "/tmp/archives-042");
      comm_DownloadDir_ev "/var/cache/apt/archives" "/tmp/archives-042" [] None;
      exec_Run_ev "/bin/sh"
        ["-c"; "mv -n /tmp/archives-042/*.deb /var/cache/apt/archives"] None;
      os_RemoveAll_ev "/tmp/archives-042";
      RunWithUi_ev "/usr/bin/apt-get clean" None]).
Proof. reflexivity. Qed.

(** * Further properties of the code *)

(** ** From the steps to a run *)

(** A property of traces that holds of the empty trace and of the
    concatenation of two traces that have it, holds of what a list of steps
    does as soon as it holds of what each step does. *)
Lemma run_plan_closed (w : World) (p : Provisioner) (holds : list event -> Prop)
      (steps : list step) :
  holds [] ->
  (forall t1 t2, holds t1 -> holds t2 -> holds (t1 ++ t2)%list) ->
  (forall s h, In s steps -> holds (snd (run_step w p s h))) ->
  forall h : history, holds (snd (run_plan w p steps h)).
Proof.
  intros Hnil Happ. induction steps as [|s steps IH]; intros Hsteps h.
  - exact Hnil.
  - rewrite run_plan_cons.
    pose proof (Hsteps s h (or_introl eq_refl)) as Hs.
    destruct (run_step w p s h) as [[e|] t]; cbn [snd] in *; [exact Hs|].
    assert (IH' := IH (fun s' h' Hin => Hsteps s' h' (or_intror Hin)) (h ++ t)%list).
    destruct (run_plan w p steps (h ++ t)%list) as [failed t2]. cbn [snd] in *.
    apply Happ; assumption.
Qed.

(** The same for a run of [Provision], whose own events are messages to
    the user. *)
Lemma Provision_closed (w : World) (p : Provisioner) (holds : list event -> Prop) :
  holds [] ->
  (forall t1 t2, holds t1 -> holds t2 -> holds (t1 ++ t2)%list) ->
  (forall m, holds [ui_Say m]) ->
  (forall m, holds [ui_Error m]) ->
  (forall s h, In s (plan p) -> holds (snd (run_step w p s h))) ->
  forall h : history, holds (snd (Provision w p h)).
Proof.
  intros Hnil Happ Hsay Herror Hsteps h.
  rewrite Provision_runs_plan.
  pose proof (run_plan_closed w p holds (plan p) Hnil Happ Hsteps
                (h ++ [ui_Say "Provisioning with APT..."])%list) as Ht.
  destruct (run_plan w p (plan p) (h ++ [ui_Say "Provisioning with APT..."])%list)
    as [failed t].
  cbn [snd] in *.
  change (holds ([ui_Say "Provisioning with APT..."] ++ (t ++ failure_log p failed))%list).
  apply Happ; [apply Hsay|]. apply Happ; [exact Ht|].
  destruct failed as [[s e]|]; [|exact Hnil].
  unfold failure_log. destruct (failure_message p s); [apply Herror|exact Hnil].
Qed.

Lemma Forall_closed {A : Type} (P : A -> Prop) (t1 t2 : list A) :
  Forall P t1 -> Forall P t2 -> Forall P (t1 ++ t2)%list.
Proof. intros H1 H2. apply Forall_app. now split. Qed.

(** ** Prepare *)

(** [Provisioner.Prepare] fails exactly when decoding fails, and with the
    error of the decoder; when it succeeds the cache directory of the
    provisioner is not empty; in both cases packages, sources and keys are
    as the decoder left them. *)
Theorem Provisioner_Prepare_outcome :
  forall (raw : Type) (config_Decode : Config -> list raw -> Config * option error)
         (p : Provisioner) (raws : list raw),
    let decoded := fst (config_Decode (config p) raws) in
    let p' := fst (Provisioner_Prepare raw config_Decode p raws) in
    snd (Provisioner_Prepare raw config_Decode p raws) = snd (config_Decode (config p) raws)
    /\ (snd (Provisioner_Prepare raw config_Decode p raws) = None ->
        CacheDir (config p') <> "")
    /\ (snd (Provisioner_Prepare raw config_Decode p raws) <> None ->
        config p' = decoded)
    /\ Packages (config p') = Packages decoded
    /\ Sources (config p') = Sources decoded
    /\ Keys (config p') = Keys decoded.
Proof.
  intros raw config_Decode p raws.
  unfold Provisioner_Prepare, Config_Prepare.
  destruct (config_Decode (config p) raws) as [decoded [e|]]; cbn.
  - repeat split; try reflexivity. discriminate.
  - destruct (String.eqb_spec (CacheDir decoded) "") as [Hempty|Hset]; cbn;
      repeat split; try reflexivity; try discriminate; try congruence.
Qed.

Lemma Provisioner_Prepare_outcome_witness :
  CacheDir (config (fst (Provisioner_Prepare Config last_block_wins
                           (mkProvisioner (mkConfig [] [] [] ""))
                           [mkConfig ["curl"] [] [] ""]))) <> "".
Proof.
  apply (proj1 (proj2 (Provisioner_Prepare_outcome Config last_block_wins
                         (mkProvisioner (mkConfig [] [] [] ""))
                         [mkConfig ["curl"] [] [] ""]))).
  reflexivity.
Defined.


(** ** The remote footprint *)

Lemma may_emit_within_footprint (p : Provisioner) (s : step) (e : event) :
  may_emit p s e = true ->
  s <> upload_host_package_cache ->
  s <> update_host_cache ->
  within_remote_footprint p e = true.
Proof.
  intros He Hs1 Hs2.
  destruct s; try congruence; destruct e; try reflexivity; try discriminate;
    cbn [may_emit] in He; cbn [within_remote_footprint]; rewrite He;
    rewrite ?orb_true_r; reflexivity.
Qed.

Lemma step_within_footprint (w : World) (p : Provisioner) (s : step) (h : history) :
  Forall (fun e => within_remote_footprint p e = true) (snd (run_step w p s h)).
Proof.
  assert (Hemit : s <> upload_host_package_cache -> s <> update_host_cache ->
            Forall (fun e => within_remote_footprint p e = true)
              (snd (run_step w p s h))).
  { intros Hs1 Hs2. eapply Forall_impl; [|exact (step_emits w p s h)].
    intros e He. exact (may_emit_within_footprint p s e He Hs1 Hs2). }
  destruct s; try (apply Hemit; discriminate); cbn [run_step].
  - unfold uploadHostPackageCache, bind, os_Stat, UploadDir, Say, call, emit, ret.
    repeat ask_world.
    all: cbn [snd app]; repeat constructor.
    all: cbn [within_remote_footprint]; now rewrite !String.eqb_refl.
  - unfold updateCache, defer, bind, os_Stat, ioutil_TempDir, DownloadDir, exec_Run,
      os_RemoveAll, Say, Error, call, emit, ret.
    repeat ask_world. all: cbn; repeat constructor.
Qed.

(** Whatever the world answers, the calls of a run into the communicator
    stay within the fixed remote footprint: directories are uploaded from
    the cache directory to [/var/cache/apt/archives] and downloaded from
    there, files are uploaded under [/etc/apt/trusted.gpg.d/] or to
    [/etc/apt/sources.list.d/packer.list], and the remote commands are the
    DNS wait, [apt-get update], the install command and [apt-get clean]. *)
Theorem Provision_remote_footprint :
  forall (w : World) (p : Provisioner) (h : history),
    Forall (fun e => within_remote_footprint p e = true) (snd (Provision w p h)).
Proof.
  intros w p h.
  apply (Provision_closed w p (Forall (fun e => within_remote_footprint p e = true))).
  - constructor.
  - apply Forall_closed.
  - intros m. repeat constructor.
  - intros m. repeat constructor.
  - intros s h' _. apply step_within_footprint.
Qed.

(** ** The remote commands of a run *)

Lemma commands_of_app (t1 t2 : list event) :
  commands_of (t1 ++ t2)%list = (commands_of t1 ++ commands_of t2)%list.
Proof.
  induction t1 as [|e t1 IH]; [reflexivity|].
  destruct e; cbn; rewrite IH; reflexivity.
Qed.

(** Every step issues its commands, whether it succeeds or not. *)
Lemma step_commands_run (w : World) (p : Provisioner) (s : step) (h : history) :
  commands_of (snd (run_step w p s h)) = step_commands p s.
Proof.
  assert (Hnone : forall t,
            Forall (fun e => may_emit p s e = true) t ->
            step_commands p s = [] -> commands_of t = []).
  { intros t Ht Hs. induction Ht as [|e t He Ht IH]; [reflexivity|].
    destruct s; try discriminate Hs; destruct e; try discriminate He; exact IH. }
  destruct s; try (apply Hnone; [apply step_emits|reflexivity]); cbn [run_step].
  - unfold testRemoteDNS. now rewrite command_step_run.
  - unfold updateRemotePackageIndex. now rewrite command_step_run.
  - now rewrite installRemotePackages_run.
  - unfold cleanRemotePackages. now rewrite command_step_run.
Qed.

(** The steps a list of steps gets to are its first ones, up to the one
    that fails; these are the steps whose commands are issued. *)
Lemma run_plan_commands (w : World) (p : Provisioner) (steps : list step) :
  forall h : history,
  exists reached rest : list step,
    steps = (reached ++ rest)%list /\
    commands_of (snd (run_plan w p steps h)) = flat_map (step_commands p) reached /\
    (fst (run_plan w p steps h) = None -> rest = []).
Proof.
  induction steps as [|s steps IH]; intros h.
  - exists [], []. repeat split.
  - rewrite run_plan_cons.
    pose proof (step_commands_run w p s h) as Hs.
    destruct (run_step w p s h) as [[e|] t]; cbn [snd] in Hs.
    + exists [s], steps. cbn [fst snd flat_map app]. rewrite app_nil_r.
      repeat split; [exact Hs|discriminate].
    + destruct (IH (h ++ t)%list) as (reached & rest & Hsplit & Hcmds & Hall).
      destruct (run_plan w p steps (h ++ t)%list) as [failed t2].
      cbn [fst snd] in *.
      exists (s :: reached), rest. split; [now rewrite Hsplit|]. split.
      * rewrite commands_of_app, Hs, Hcmds. reflexivity.
      * exact Hall.
Qed.

(** The remote commands of a run are those of the steps it gets to, in
    the order of the plan.  A run that returns no error has issued the DNS
    wait, [apt-get update] if there are sources, the install command and
    [apt-get clean], each once and in this order. *)
Theorem Provision_command_order :
  forall (w : World) (p : Provisioner) (h : history),
    (exists reached rest : list step,
       plan p = (reached ++ rest)%list /\
       commands_of (snd (Provision w p h)) = flat_map (step_commands p) reached)
    /\
    (fst (Provision w p h) = None ->
     commands_of (snd (Provision w p h)) =
       (dns_wait_command ::
        match Sources (config p) with
        | [] => []
        | _ :: _ => ["/usr/bin/apt-get update"]
        end ++
        [install_command p; "/usr/bin/apt-get clean"])%list).
Proof.
  intros w p h.
  assert (Hlog : forall failed, commands_of (failure_log p failed) = []).
  { intros [[s e]|]; [|reflexivity].
    unfold failure_log. now destruct (failure_message p s). }
  rewrite Provision_runs_plan.
  destruct (run_plan_commands w p (plan p) (h ++ [ui_Say "Provisioning with APT..."])%list)
    as (reached & rest & Hsplit & Hcmds & Hall).
  destruct (run_plan w p (plan p) (h ++ [ui_Say "Provisioning with APT..."])%list)
    as [failed t].
  cbn [fst snd] in *.
  assert (Hrun : commands_of (ui_Say "Provisioning with APT..." :: t ++ failure_log p failed)
                 = flat_map (step_commands p) reached).
  { cbn [commands_of]. now rewrite commands_of_app, Hlog, app_nil_r. }
  split.
  - exists reached, rest. split; [exact Hsplit|exact Hrun].
  - intros Hok. rewrite Hrun.
    destruct failed as [[s e]|]; [discriminate Hok|].
    rewrite (Hall eq_refl), app_nil_r in Hsplit. rewrite <- Hsplit.
    unfold plan. destruct (Sources (config p)); reflexivity.
Qed.

Lemma Provision_command_order_witness :
  commands_of (snd (Provision debian_host bullseye [])) =
    [dns_wait_command; "/usr/bin/apt-get update"; install_command bullseye;
     "/usr/bin/apt-get clean"].
Proof.
  exact (proj2 (Provision_command_order debian_host bullseye []) eq_refl).
Defined.

(** ** Runs that succeed *)

Lemma trust_run_quiet (keys : list string) (t : list event) (r : option error) :
  trust_run keys t r ->
  r = None ->
  Forall (fun e => is_ui_Error e = false) t.
Proof.
  induction 1; intros Hr; try discriminate Hr; repeat constructor; auto.
Qed.

(** A step that returns no error has sent no error message. *)
Lemma step_success_quiet (w : World) (p : Provisioner) (s : step) (h : history) :
  fst (run_step w p s h) = None ->
  Forall (fun e => is_ui_Error e = false) (snd (run_step w p s h)).
Proof.
  destruct s; cbn [run_step].
  - unfold uploadHostPackageCache, bind, os_Stat, UploadDir, Say, call, emit, ret.
    repeat ask_world. all: cbn; intros Hok; try discriminate Hok; repeat constructor.
  - destruct (uploadHostPackageTrust_run w p h) as (r & t & Heq & Hrun).
    rewrite Heq. cbn [fst snd]. intros Hok. apply Forall_app. split.
    + exact (trust_run_quiet _ _ _ Hrun Hok).
    + apply Forall_forall. intros e He. apply in_map_iff in He.
      destruct He as (f & <- & _). reflexivity.
  - intros _. unfold testRemoteDNS. rewrite command_step_run. repeat constructor.
  - intros _. rewrite uploadPackageList_run. repeat constructor.
  - intros _. unfold updateRemotePackageIndex. rewrite command_step_run.
    repeat constructor.
  - intros _. rewrite installRemotePackages_run. repeat constructor.
  - unfold updateCache, defer, bind, os_Stat, ioutil_TempDir, DownloadDir, exec_Run,
      os_RemoveAll, Say, Error, call, emit, ret.
    repeat ask_world. all: cbn; intros Hok; try discriminate Hok; repeat constructor.
  - intros _. unfold cleanRemotePackages. rewrite command_step_run. repeat constructor.
Qed.

Lemma run_plan_success_quiet (w : World) (p : Provisioner) (steps : list step) :
  forall h : history,
    fst (run_plan w p steps h) = None ->
    Forall (fun e => is_ui_Error e = false) (snd (run_plan w p steps h)).
Proof.
  induction steps as [|s steps IH]; intros h; [constructor|].
  rewrite run_plan_cons.
  pose proof (step_success_quiet w p s h) as Hs.
  destruct (run_step w p s h) as [[e|] t]; cbn [fst snd] in *; [discriminate|].
  specialize (IH (h ++ t)%list).
  destruct (run_plan w p steps (h ++ t)%list) as [failed t2]. cbn [fst snd] in *.
  intros Hok. apply Forall_app. split; [exact (Hs eq_refl)|exact (IH Hok)].
Qed.

Lemma plan_ends_with_clean (p : Provisioner) :
  exists before : list step, plan p = (before ++ [clean_remote_cache])%list.
Proof.
  unfold plan. destruct (Sources (config p)).
  - now exists [upload_host_package_cache; upload_trust_keys; wait_for_dns;
                install_packages; update_host_cache].
  - now exists [upload_host_package_cache; upload_trust_keys; wait_for_dns;
                upload_package_sources; refresh_package_index;
                install_packages; update_host_cache].
Qed.

(** The shape of a run that returns no error. *)
Lemma Provision_success_shape :
  forall (w : World) (p : Provisioner) (h : history) (t : list event),
    Provision w p h = (None, t) ->
    Forall (fun e => is_ui_Error e = false) t /\
    exists t' : list event,
      t = (t' ++ [RunWithUi_ev "/usr/bin/apt-get clean" None])%list.
Proof.
  intros w p h t Hrun. rewrite Provision_runs_plan in Hrun.
  pose proof (run_plan_success_quiet w p (plan p)
                (h ++ [ui_Say "Provisioning with APT..."])%list) as Hquiet.
  destruct (plan_ends_with_clean p) as (before & Hplan).
  pose proof (run_plan_app w p before [clean_remote_cache]
                (h ++ [ui_Say "Provisioning with APT..."])%list) as Happ.
  rewrite <- Hplan in Happ.
  destruct (run_plan w p (plan p) (h ++ [ui_Say "Provisioning with APT..."])%list)
    as [[[s e]|] tp]; [discriminate Hrun|].
  cbn [fst snd option_map failure_log] in *.
  injection Hrun as <-. rewrite app_nil_r. split.
  - constructor; [reflexivity|exact (Hquiet eq_refl)].
  - destruct (run_plan w p before (h ++ [ui_Say "Provisioning with APT..."])%list)
      as [[f|] tb]; [discriminate Happ|].
    rewrite run_plan_cons in Happ. cbn [run_step] in Happ.
    unfold cleanRemotePackages in Happ. rewrite command_step_run in Happ.
    match type of Happ with
    | context [world_RunWithUi w ?hist ?c] =>
        destruct (world_RunWithUi w hist c) as [e|]
    end; [discriminate Happ|].
    cbn [run_plan] in Happ. unfold ret in Happ. injection Happ as ->.
    exists (ui_Say "Provisioning with APT..." :: tb). reflexivity.
Qed.

(** The provisioner calls [Ui.Error] only in runs that fail: every
    [ui.Error] of [config.go] is on a path that returns an error, so a
    trace that has such a call belongs to a run that returns an error.
    (What a remote command prints goes to the [Ui] inside [RunWithUi]; it
    is no call of the provisioner and no event of the trace.)  And the
    last thing a run that returns no error did is the [RunWithUi] call for
    [/usr/bin/apt-get clean], which returned no error. *)
Theorem Provision_success_trace :
  forall (w : World) (p : Provisioner) (h : history)
         (r : option error) (t : list event),
    Provision w p h = (r, t) ->
    (forall message : string, In (ui_Error message) t -> r <> None) /\
    (r = None ->
     exists t' : list event,
       t = (t' ++ [RunWithUi_ev "/usr/bin/apt-get clean" None])%list).
Proof.
  intros w p h r t Hrun. split.
  - intros message Hin ->.
    destruct (Provision_success_shape w p h t Hrun) as [Hquiet _].
    rewrite Forall_forall in Hquiet.
    discriminate (Hquiet _ Hin).
  - intros ->. exact (proj2 (Provision_success_shape w p h t Hrun)).
Qed.

Lemma Provision_success_trace_witness :
  (forall message : string,
     In (ui_Error message)
       (snd (Provision (failing_command dns_wait_command debian_host) bullseye [])) ->
     fst (Provision (failing_command dns_wait_command debian_host) bullseye []) <> None)
  /\
  exists t' : list event,
    snd (Provision debian_host bullseye []) =
      (t' ++ [RunWithUi_ev "/usr/bin/apt-get clean" None])%list.
Proof.
  split.
  - refine (proj1 (Provision_success_trace
                     (failing_command dns_wait_command debian_host) bullseye []
                     (fst (Provision (failing_command dns_wait_command debian_host)
                             bullseye []))
                     (snd (Provision (failing_command dns_wait_command debian_host)
                             bullseye []))
                     _)).
    vm_compute. reflexivity.
  - refine (proj2 (Provision_success_trace debian_host bullseye [] None
                     (snd (Provision debian_host bullseye [])) _) eq_refl).
    vm_compute. reflexivity.
Defined.

(** ** What a run removes *)

Lemma nothing_removed (t : list event) :
  Forall (fun e => is_RemoveAll e = false) t ->
  removes_own_tempdir t.
Proof.
  intros Ht pre post dir Heq. exfalso.
  exact (no_marked_element is_RemoveAll t pre post (os_RemoveAll_ev dir)
           Ht eq_refl Heq).
Qed.

Lemma removes_own_tempdir_app (t1 t2 : list event) :
  removes_own_tempdir t1 ->
  removes_own_tempdir t2 ->
  removes_own_tempdir (t1 ++ t2).
Proof.
  intros H1 H2 pre post dir Heq.
  apply app_eq_app in Heq. destruct Heq as (l & [[Ht1 Hpost]|[Hpre Ht2]]).
  - destruct l as [|x l].
    + cbn in Hpost. rewrite app_nil_r in Ht1. subst t1.
      destruct (H2 [] post dir (eq_sym Hpost)) as (parent & pattern & []).
    + cbn in Hpost. injection Hpost as <- ->.
      exact (H1 pre l dir Ht1).
  - destruct (H2 l post dir Ht2) as (parent & pattern & Hin).
    exists parent, pattern. rewrite Hpre. apply in_or_app. now right.
Qed.

(** A trace that removes a directory as its last event, and nothing
    before, after it has got that directory from [ioutil.TempDir]. *)
Lemma removes_last (a : list event) (parent pattern dir : string) :
  Forall (fun e => is_RemoveAll e = false) a ->
  In (ioutil_TempDir_ev parent pattern (Ok dir)) a ->
  removes_own_tempdir (a ++ [os_RemoveAll_ev dir]).
Proof.
  intros Ha Hin pre post dir' Heq.
  pose proof (split_at_marked is_RemoveAll a [] (os_RemoveAll_ev dir) Ha
                (Forall_nil _) pre post (os_RemoveAll_ev dir') eq_refl Heq) as Hpre.
  subst pre. apply app_inv_head in Heq. injection Heq as <- _.
  now exists parent, pattern.
Qed.

Lemma step_removes_own_tempdir (w : World) (p : Provisioner) (s : step) (h : history) :
  removes_own_tempdir (snd (run_step w p s h)).
Proof.
  assert (Hemit : s <> update_host_cache -> removes_own_tempdir (snd (run_step w p s h))).
  { intros Hs. apply nothing_removed.
    eapply Forall_impl; [|exact (step_emits w p s h)].
    intros e He. destruct s; try congruence; destruct e; try reflexivity;
      discriminate He. }
  destruct s; try (apply Hemit; discriminate); cbn [run_step].
  unfold updateCache, defer, bind, os_Stat, ioutil_TempDir, DownloadDir, exec_Run,
    os_RemoveAll, Say, Error, call, emit, ret.
  repeat ask_world.
  all: cbn [snd app].
  all: match goal with
       | |- removes_own_tempdir ?l =>
           first [ solve [apply nothing_removed; repeat constructor]
                 | apply (removes_last (removelast l) (os_TempDir w) "archives-");
                   [repeat constructor|cbn; auto] ]
       end.
Qed.

(** Whatever the world answers, a run removes a directory only after
    [ioutil.TempDir] has returned that very directory earlier in the run. *)
Theorem Provision_removes_only_its_tempdir :
  forall (w : World) (p : Provisioner) (h : history)
         (pre post : list event) (dir : string),
    snd (Provision w p h) = (pre ++ os_RemoveAll_ev dir :: post)%list ->
    exists parent pattern : string,
      In (ioutil_TempDir_ev parent pattern (Ok dir)) pre.
Proof.
  intros w p h.
  apply (Provision_closed w p removes_own_tempdir).
  - apply nothing_removed. constructor.
  - apply removes_own_tempdir_app.
  - intros m. apply nothing_removed. repeat constructor.
  - intros m. apply nothing_removed. repeat constructor.
  - intros s h' _. apply step_removes_own_tempdir.
Qed.

Lemma Provision_removes_only_its_tempdir_witness :
  exists parent pattern : string,
    In (ioutil_TempDir_ev parent pattern (Ok "/tmp/archives-042"))
      (firstn 9 (snd (Provision debian_host curl_only []))).
Proof.
  apply (Provision_removes_only_its_tempdir debian_host curl_only []
           (firstn 9 (snd (Provision debian_host curl_only [])))
           (skipn 10 (snd (Provision debian_host curl_only [])))
           "/tmp/archives-042").
  reflexivity.
Defined.

(** ** The files of the key upload *)

Lemma closed_files_app (t1 t2 : list event) :
  closed_files (t1 ++ t2)%list = (closed_files t1 ++ closed_files t2)%list.
Proof.
  induction t1 as [|e t1 IH]; [reflexivity|].
  destruct e; cbn; rewrite IH; reflexivity.
Qed.

Lemma opened_files_app (t1 t2 : list event) :
  opened_files (t1 ++ t2)%list = (opened_files t1 ++ opened_files t2)%list.
Proof.
  induction t1 as [|e t1 IH]; [reflexivity|].
  destruct e; cbn; try exact IH.
  destruct r; cbn; [now rewrite IH|exact IH].
Qed.

Lemma closes_only (files : list File) :
  closed_files (map File_Close_ev files) = files /\
  opened_files (map File_Close_ev files) = [].
Proof.
  induction files as [|f files [IH1 IH2]]; [split; reflexivity|].
  cbn. now rewrite IH1, IH2.
Qed.

Lemma trust_run_closes_nothing (keys : list string) (t : list event) (r : option error) :
  trust_run keys t r -> closed_files t = [].
Proof. induction 1; cbn; auto. Qed.

(** Whether the key upload succeeds or fails, it closes every file it has
    opened, each once, the last opened first; and it closes none of them
    before it is through with the keys: all the opened files stay open
    until the step returns. *)
Theorem uploadHostPackageTrust_closes_files :
  forall (w : World) (p : Provisioner) (h : history),
    let t := snd (uploadHostPackageTrust w p h) in
    closed_files t = rev (opened_files t) /\
    exists visit : list event,
      t = (visit ++ map File_Close_ev (closed_files t))%list /\
      closed_files visit = [].
Proof.
  intros w p h.
  destruct (uploadHostPackageTrust_run w p h) as (r & visit & Heq & Hrun).
  rewrite Heq. cbn [snd].
  pose proof (trust_run_closes_nothing _ _ _ Hrun) as Hnone.
  destruct (closes_only (rev (opened_files visit))) as [Hclosed Hopened].
  rewrite closed_files_app, opened_files_app, Hnone, Hclosed, Hopened, app_nil_r.
  split; [reflexivity|].
  exists visit. split; [reflexivity|exact Hnone].
Qed.

Example uploadHostPackageTrust_closes_after_failure :
  closed_files
    (snd (uploadHostPackageTrust (with_unreadable "extra.gpg" debian_host) bullseye []))
    = [mkFile "/usr/share/keyrings/debian.gpg" 3].
Proof. reflexivity. Qed.

(** ** Keys that are all there *)

Lemma upload_destinations_app (t1 t2 : list event) :
  upload_destinations (t1 ++ t2)%list =
    (upload_destinations t1 ++ upload_destinations t2)%list.
Proof.
  induction t1 as [|e t1 IH]; [reflexivity|].
  destruct e; cbn; rewrite IH; reflexivity.
Qed.

Lemma closes_upload_nothing (files : list File) :
  upload_destinations (map File_Close_ev files) = [].
Proof. induction files; [reflexivity|assumption]. Qed.

Lemma uploadHostPackageTrust_loop_all_there (w : World) (keys : list string) :
  (forall h name, In name keys -> exists f, world_Open w h name = Ok f) ->
  (forall h f, exists fi, world_FileStat w h f = Ok fi) ->
  (forall h dst src fi, world_Upload w h dst src fi = None) ->
  forall (deferred : list File) (h : history),
  exists (ds : list File) (t : list event),
    uploadHostPackageTrust_loop w keys deferred h = ((None, ds), t) /\
    upload_destinations t =
      map (fun key => "/etc/apt/trusted.gpg.d/" ++ filepath_Base key) keys.
Proof.
  intros Hopen Hstat Hupload.
  induction keys as [|key keys IH]; intros deferred h.
  - exists deferred, []. split; reflexivity.
  - assert (IH' := IH (fun h name Hin => Hopen h name (or_intror Hin))).
    cbn [uploadHostPackageTrust_loop].
    unfold bind at 1. unfold os_Open, call.
    destruct (Hopen h key (or_introl eq_refl)) as (f & ->).
    unfold bind at 1. unfold File_Stat, call.
    match goal with
    | |- context [world_FileStat w ?hist f] => destruct (Hstat hist f) as (fi & ->)
    end.
    unfold bind at 1. unfold Upload, call. rewrite Hupload.
    match goal with
    | |- context [uploadHostPackageTrust_loop w keys ?d ?hist] =>
        destruct (IH' d hist) as (ds & t & -> & Hdst)
    end.
    cbn [app]. eexists _, _. split; [reflexivity|].
    cbn [upload_destinations map]. now rewrite Hdst.
Qed.

Lemma uploadHostPackageTrust_all_there_run (w : World) (p : Provisioner) (h : history) :
  (forall h name, In name (Keys (config p)) -> exists f, world_Open w h name = Ok f) ->
  (forall h f, exists fi, world_FileStat w h f = Ok fi) ->
  (forall h dst src fi, world_Upload w h dst src fi = None) ->
  fst (uploadHostPackageTrust w p h) = None /\
  upload_destinations (snd (uploadHostPackageTrust w p h)) =
    map (fun key => "/etc/apt/trusted.gpg.d/" ++ filepath_Base key) (Keys (config p)).
Proof.
  intros Hopen Hstat Hupload.
  destruct (uploadHostPackageTrust_loop_all_there w (Keys (config p))
              Hopen Hstat Hupload [] h) as (ds & t & Hloop & Hdst).
  unfold uploadHostPackageTrust, bind. rewrite Hloop, run_deferred_closes.
  cbn [fst snd ret]. split; [reflexivity|].
  now rewrite !upload_destinations_app, closes_upload_nothing, Hdst, !app_nil_r.
Qed.

(** When every key can be opened and read and every upload succeeds, the
    key upload returns no error and uploads one file for each key, in the
    order of the keys, each to [/etc/apt/trusted.gpg.d/] followed by the
    base name of the key. *)
Theorem uploadHostPackageTrust_all_there :
  forall (w : World) (p : Provisioner) (h : history),
    (forall h name, In name (Keys (config p)) -> exists f, world_Open w h name = Ok f) ->
    (forall h f, exists fi, world_FileStat w h f = Ok fi) ->
    (forall h dst src fi, world_Upload w h dst src fi = None) ->
    fst (uploadHostPackageTrust w p h) = None /\
    upload_destinations (snd (uploadHostPackageTrust w p h)) =
      map (fun key => "/etc/apt/trusted.gpg.d/" ++ filepath_Base key) (Keys (config p)).
Proof.
  intros w p h. apply uploadHostPackageTrust_all_there_run.
Qed.

Lemma uploadHostPackageTrust_all_there_witness :
  fst (uploadHostPackageTrust debian_host bullseye []) = None /\
  upload_destinations (snd (uploadHostPackageTrust debian_host bullseye [])) =
    ["/etc/apt/trusted.gpg.d/debian.gpg"; "/etc/apt/trusted.gpg.d/extra.gpg"].
Proof.
  apply (uploadHostPackageTrust_all_there debian_host bullseye []).
  - intros h name _. eexists. reflexivity.
  - intros h f. eexists. reflexivity.
  - intros h dst src fi. reflexivity.
Defined.

(** ** The base name of a key *)

(** The remote name of a key is the last element of its path alone: when
    the keys are files [name] in directories [dir], all there, the uploads
    go to [/etc/apt/trusted.gpg.d/name], whatever the directories; two
    keys with the same file name are uploaded to the same remote path. *)
Theorem uploadHostPackageTrust_drops_directories :
  forall (w : World) (p : Provisioner) (h : history) (files : list (string * string)),
    Keys (config p) = map (fun file => fst file ++ String "/" (snd file)) files ->
    Forall (fun file => snd file <> "" /\ no_separator (snd file) = true) files ->
    (forall h name, In name (Keys (config p)) -> exists f, world_Open w h name = Ok f) ->
    (forall h f, exists fi, world_FileStat w h f = Ok fi) ->
    (forall h dst src fi, world_Upload w h dst src fi = None) ->
    upload_destinations (snd (uploadHostPackageTrust w p h)) =
      map (fun file => "/etc/apt/trusted.gpg.d/" ++ snd file) files.
Proof.
  intros w p h files Hkeys Hfiles Hopen Hstat Hupload.
  destruct (uploadHostPackageTrust_all_there_run w p h Hopen Hstat Hupload)
    as [_ Hdst].
  rewrite Hdst, Hkeys, map_map.
  apply map_ext_in. intros [dir name] Hin.
  rewrite Forall_forall in Hfiles. destruct (Hfiles _ Hin) as [Hne Hname].
  cbn [fst snd] in *. now rewrite filepath_Base_in_directory.
Qed.

Lemma uploadHostPackageTrust_drops_directories_witness :
  upload_destinations
    (snd (uploadHostPackageTrust debian_host
            (mkProvisioner (mkConfig [] [] ["/etc/a/repo.gpg"; "vendor/repo.gpg"] "/c")) []))
    = ["/etc/apt/trusted.gpg.d/repo.gpg"; "/etc/apt/trusted.gpg.d/repo.gpg"].
Proof.
  apply (uploadHostPackageTrust_drops_directories debian_host
           (mkProvisioner (mkConfig [] [] ["/etc/a/repo.gpg"; "vendor/repo.gpg"] "/c")) []
           [("/etc/a", "repo.gpg"); ("vendor", "repo.gpg")]).
  - reflexivity.
  - repeat constructor; discriminate.
  - intros h name _. eexists. reflexivity.
  - intros h f. eexists. reflexivity.
  - intros h dst src fi. reflexivity.
Defined.

(** ** The two cache steps in detail *)

(** The cache upload uploads a directory only when [os.Stat] has said
    that the cache directory is a directory; it then uploads the cache
    directory to [/var/cache/apt/archives], excluding nothing, does nothing
    else, and returns what the upload returns. *)
Theorem uploadHostPackageCache_upload_guard :
  forall (w : World) (p : Provisioner) (h : history) (res : option error)
         (t : list event) (dst src : string) (exclude : list string) (r : option error),
    uploadHostPackageCache w p h = (res, t) ->
    In (comm_UploadDir_ev dst src exclude r) t ->
    exists cache : FileInfo,
      fi_IsDir cache = true /\
      t = [os_Stat_ev (CacheDir (config p)) (Ok cache);
           comm_UploadDir_ev "/var/cache/apt/archives" (CacheDir (config p)) [] r] /\
      res = r.
Proof.
  intros w p h res t dst src exclude r.
  unfold uploadHostPackageCache, bind, os_Stat, UploadDir, Say, call, emit, ret.
  repeat ask_world.
  all: cbn; intros Hrun Hin; injection Hrun as <- <-.
  all: find_event Hin.
  all: injection Hin as <- <- <- <-.
  all: eexists; split; [eassumption|split; reflexivity].
Qed.

Lemma uploadHostPackageCache_upload_guard_witness :
  exists cache : FileInfo,
    fi_IsDir cache = true /\
    snd (uploadHostPackageCache debian_host curl_only []) =
      [os_Stat_ev "/var/cache/apt/archives" (Ok cache);
       comm_UploadDir_ev "/var/cache/apt/archives" "/var/cache/apt/archives" [] None] /\
    fst (uploadHostPackageCache debian_host curl_only []) = None.
Proof.
  apply (uploadHostPackageCache_upload_guard debian_host curl_only []
           (fst (uploadHostPackageCache debian_host curl_only []))
           (snd (uploadHostPackageCache debian_host curl_only []))
           "/var/cache/apt/archives" "/var/cache/apt/archives" [] None).
  - reflexivity.
  - cbn. right. left. reflexivity.
Defined.

(** The cache update runs a local command only after the download into
    the temporary directory has succeeded; the command is [/bin/sh -c]
    with [mv -n], from the [.deb] files of that directory to the cache
    directory, and the step returns what the command returns. *)
Theorem updateCache_move_guard :
  forall (w : World) (p : Provisioner) (h : history) (res : option error)
         (t : list event) (name : string) (args : list string) (r : option error),
    updateCache w p h = (res, t) ->
    In (exec_Run_ev name args r) t ->
    exists (cache : FileInfo) (dir : string) (rest : list event),
      t = os_Stat_ev (CacheDir (config p)) (Ok cache) ::
          ioutil_TempDir_ev (os_TempDir w) "archives-" (Ok dir) ::
          comm_DownloadDir_ev "/var/cache/apt/archives" dir [] None ::
          exec_Run_ev "/bin/sh"
            ["-c"; "mv -n " ++ dir ++ "/*.deb " ++ CacheDir (config p)] r ::
          rest /\
      res = r.
Proof.
  intros w p h res t name args r.
  unfold updateCache, defer, bind, os_Stat, ioutil_TempDir, DownloadDir, exec_Run,
    os_RemoveAll, Say, Error, call, emit, ret.
  repeat ask_world.
  all: cbn; intros Hrun Hin; injection Hrun as <- <-.
  all: find_event Hin.
  all: injection Hin as <- <- <-.
  all: eexists _, _, _; split; reflexivity.
Qed.

Lemma updateCache_move_guard_witness :
  exists (cache : FileInfo) (dir : string) (rest : list event),
    snd (updateCache (failing_exec debian_host) curl_only []) =
      os_Stat_ev "/var/cache/apt/archives" (Ok cache) ::
      ioutil_TempDir_ev "/tmp" "archives-" (Ok dir) ::
      comm_DownloadDir_ev "/var/cache/apt/archives" dir [] None ::
      exec_Run_ev "/bin/sh"
        ["-c"; "mv -n " ++ dir ++ "/*.deb " ++ "/var/cache/apt/archives"]
        (Some (exit_status "1")) ::
      rest /\
    fst (updateCache (failing_exec debian_host) curl_only []) = Some (exit_status "1").
Proof.
  apply (updateCache_move_guard (failing_exec debian_host) curl_only []
           (fst (updateCache (failing_exec debian_host) curl_only []))
           (snd (updateCache (failing_exec debian_host) curl_only []))
           "/bin/sh" ["-c"; "mv -n /tmp/archives-042/*.deb /var/cache/apt/archives"]
           (Some (exit_status "1"))).
  - reflexivity.
  - cbn. right. right. right. left. reflexivity.
Defined.

(** The cache update returns no error in two cases only: the cache
    directory does not exist, and the step has done nothing; or the
    directory was made, the download and the move succeeded, and the
    directory was removed. *)
Theorem updateCache_success :
  forall (w : World) (p : Provisioner) (h : history) (t : list event),
    updateCache w p h = (None, t) ->
    (exists e : error,
       os_IsNotExist (Some e) = true /\
       t = [os_Stat_ev (CacheDir (config p)) (Err e);
            ui_Say "Skipping updating package cache, likely not running on a debian based host."])
    \/
    (exists (cache : FileInfo) (dir : string),
       t = [os_Stat_ev (CacheDir (config p)) (Ok cache);
            ioutil_TempDir_ev (os_TempDir w) "archives-" (Ok dir);
            comm_DownloadDir_ev "/var/cache/apt/archives" dir [] None;
            exec_Run_ev "/bin/sh"
              ["-c"; "mv -n " ++ dir ++ "/*.deb " ++ CacheDir (config p)] None;
            os_RemoveAll_ev dir]).
Proof.
  intros w p h t.
  unfold updateCache, defer, bind, os_Stat, ioutil_TempDir, DownloadDir, exec_Run,
    os_RemoveAll, Say, Error, call, emit, ret.
  repeat ask_world.
  all: cbn; intros Hrun; try discriminate Hrun; injection Hrun as <-.
  - right. eexists _, _. reflexivity.
  - left. eexists. split; [eassumption|reflexivity].
Qed.

Lemma updateCache_success_witness :
  (exists e : error,
     os_IsNotExist (Some e) = true /\
     snd (updateCache debian_host curl_only []) =
       [os_Stat_ev "/var/cache/apt/archives" (Err e);
        ui_Say "Skipping updating package cache, likely not running on a debian based host."])
  \/
  (exists (cache : FileInfo) (dir : string),
     snd (updateCache debian_host curl_only []) =
       [os_Stat_ev "/var/cache/apt/archives" (Ok cache);
        ioutil_TempDir_ev "/tmp" "archives-" (Ok dir);
        comm_DownloadDir_ev "/var/cache/apt/archives" dir [] None;
        exec_Run_ev "/bin/sh"
          ["-c"; "mv -n " ++ dir ++ "/*.deb " ++ "/var/cache/apt/archives"] None;
        os_RemoveAll_ev dir]).
Proof.
  apply (updateCache_success debian_host curl_only []
           (snd (updateCache debian_host curl_only []))).
  reflexivity.
Defined.

(** ** A failure without a message *)

(** When the first key cannot be opened, for another reason than its
    absence, [Provision] returns the error of [os.Open] and stops; neither
    the key upload nor [Provision] sends a message to the user about it:
    the run ends with the failed [os.Open]. *)
Theorem Provision_unreadable_key_is_silent :
  forall (w : World) (p : Provisioner) (h : history) (t1 : list event)
         (key : string) (keys : list string) (e : error),
    uploadHostPackageCache w p (h ++ [ui_Say "Provisioning with APT..."])%list = (None, t1) ->
    Keys (config p) = key :: keys ->
    world_Open w ((h ++ [ui_Say "Provisioning with APT..."]) ++ t1)%list key = Err e ->
    os_IsNotExist (Some e) = false ->
    Provision w p h =
      (Some e,
       (ui_Say "Provisioning with APT..." :: t1 ++ [os_Open_ev key (Err e)])%list).
Proof.
  intros w p h t1 key keys e Hcache Hkeys Hopen Hne.
  rewrite (Provision_first_failure w p h [upload_host_package_cache]
             (tl (tl (plan p))) upload_trust_keys e t1 [os_Open_ev key (Err e)]).
  - reflexivity.
  - unfold plan. reflexivity.
  - rewrite run_plan_cons. cbn [run_step]. rewrite Hcache.
    cbn [run_plan]. unfold ret. now rewrite app_nil_r.
  - cbn [run_step]. unfold uploadHostPackageTrust. rewrite Hkeys.
    cbn [uploadHostPackageTrust_loop].
    unfold bind, os_Open, call. rewrite Hopen, Hne. reflexivity.
Qed.

Lemma Provision_unreadable_key_is_silent_witness :
  Provision (with_unreadable "/usr/share/keyrings/debian.gpg" debian_host) bullseye [] =
    (Some (eacces "/usr/share/keyrings/debian.gpg"),
     [ui_Say "Provisioning with APT...";
      os_Stat_ev "/var/cache/apt/archives" (Ok (mkFileInfo "/var/cache/apt/archives" true));
      comm_UploadDir_ev "/var/cache/apt/archives" "/var/cache/apt/archives" [] None;
      os_Open_ev "/usr/share/keyrings/debian.gpg"
        (Err (eacces "/usr/share/keyrings/debian.gpg"))]).
Proof.
  exact (Provision_unreadable_key_is_silent
           (with_unreadable "/usr/share/keyrings/debian.gpg" debian_host) bullseye []
           _ "/usr/share/keyrings/debian.gpg" ["extra.gpg"]
           (eacces "/usr/share/keyrings/debian.gpg")
           eq_refl eq_refl eq_refl eq_refl).
Defined.

(** ** The local footprint *)

Lemma key_upload_event_more (key : string) (keys : list string) (e : event) :
  key_upload_event keys e -> key_upload_event (key :: keys) e.
Proof.
  destruct e; cbn; auto.
  intros (k & Hin & Hdst). exists k. auto.
Qed.

Lemma trust_run_key_events (keys : list string) (t : list event) (r : option error) :
  trust_run keys t r -> Forall (key_upload_event keys) t.
Proof.
  induction 1;
    repeat match goal with
           | |- Forall _ (_ :: _) => constructor
           | |- Forall _ [] => constructor
           | H : Forall (key_upload_event ?ks) ?t |- Forall (key_upload_event (_ :: ?ks)) ?t =>
               eapply Forall_impl; [|exact H]; apply key_upload_event_more
           end;
    cbn; auto; try (eexists; split; [left; reflexivity|reflexivity]).
Qed.

Lemma uploadHostPackageTrust_key_events (w : World) (p : Provisioner) (h : history) :
  Forall (key_upload_event (Keys (config p))) (snd (uploadHostPackageTrust w p h)).
Proof.
  destruct (uploadHostPackageTrust_run w p h) as (r & t & Heq & Hrun).
  rewrite Heq. cbn [snd]. apply Forall_app. split.
  - exact (trust_run_key_events _ _ _ Hrun).
  - apply Forall_forall. intros e He. apply in_map_iff in He.
    destruct He as (f & <- & _). exact I.
Qed.

Lemma step_within_local_footprint (w : World) (p : Provisioner) (s : step) (h : history) :
  Forall (within_local_footprint w p) (snd (run_step w p s h)).
Proof.
  destruct s; cbn [run_step].
  - unfold uploadHostPackageCache, bind, os_Stat, UploadDir, Say, call, emit, ret.
    repeat ask_world. all: cbn [snd app]; repeat constructor.
  - eapply Forall_impl; [|exact (uploadHostPackageTrust_key_events w p h)].
    intros e He. destruct e; cbn in *; auto; contradiction.
  - unfold testRemoteDNS. rewrite command_step_run. repeat constructor.
  - rewrite uploadPackageList_run. repeat constructor.
  - unfold updateRemotePackageIndex. rewrite command_step_run. repeat constructor.
  - rewrite installRemotePackages_run. repeat constructor.
  - unfold updateCache, defer, bind, os_Stat, ioutil_TempDir, DownloadDir, exec_Run,
      os_RemoveAll, Say, Error, call, emit, ret.
    repeat ask_world.
    all: cbn [snd app]; repeat constructor.
    all: eexists; reflexivity.
  - unfold cleanRemotePackages. rewrite command_step_run. repeat constructor.
Qed.

(** Whatever the world answers, a run looks at nothing of the local file
    system but the cache directory ([os.Stat]) and the keys ([os.Open]);
    it makes its temporary directory in [os.TempDir()] with the pattern
    [archives-]; and the only local command it runs is [/bin/sh -c] with
    the no-clobber move of [.deb] files into the cache directory. *)
Theorem Provision_local_footprint :
  forall (w : World) (p : Provisioner) (h : history),
    Forall (within_local_footprint w p) (snd (Provision w p h)).
Proof.
  intros w p h.
  apply (Provision_closed w p (Forall (within_local_footprint w p))).
  - constructor.
  - apply Forall_closed.
  - intros m. repeat constructor.
  - intros m. repeat constructor.
  - intros s h' _. apply step_within_local_footprint.
Qed.

Lemma no_separator_app (a b : string) :
  no_separator a = true -> no_separator b = true -> no_separator (a ++ b) = true.
Proof.
  intros Ha Hb. induction a as [|c a IH]; [exact Hb|].
  cbn in *. apply andb_true_iff in Ha. destruct Ha as [Hc Ha].
  now rewrite Hc, IH.
Qed.

Lemma last_element_no_separator (path : string) :
  forall cur, no_separator cur = true -> no_separator (last_element path cur) = true.
Proof.
  induction path as [|c path IH]; intros cur Hcur; [exact Hcur|].
  cbn [last_element]. destruct (is_path_separator c) eqn:Hc.
  - apply IH. reflexivity.
  - apply IH. apply no_separator_app; [exact Hcur|].
    cbn. now rewrite Hc.
Qed.

(** A base name is never empty, and it is a single path element: it is
    [/] or has no separator. *)
Lemma filepath_Base_element (path : string) :
  filepath_Base path <> "" /\
  (filepath_Base path = "/" \/ no_separator (filepath_Base path) = true).
Proof.
  unfold filepath_Base. destruct path as [|c path]; [split; [discriminate|now right]|].
  pose proof (last_element_no_separator
                (strip_trailing_separators (String c path)) "" eq_refl) as Hlast.
  destruct (last_element (strip_trailing_separators (String c path)) "").
  - split; [discriminate|now left].
  - split; [discriminate|now right].
Qed.

Lemma trust_run_upload_count (keys : list string) (t : list event) (r : option error) :
  trust_run keys t r ->
  List.length (upload_destinations t) <= List.length keys.
Proof. induction 1; cbn; lia. Qed.

(** Whatever the world answers, every file the key upload uploads goes to
    [/etc/apt/trusted.gpg.d/] followed by the base name of one of the keys,
    which is never empty and never names a further directory level; and
    there are no more uploads than keys. *)
Theorem uploadHostPackageTrust_destinations :
  forall (w : World) (p : Provisioner) (h : history),
    Forall (fun dst =>
              exists key : string,
                In key (Keys (config p)) /\
                dst = "/etc/apt/trusted.gpg.d/" ++ filepath_Base key /\
                filepath_Base key <> "" /\
                (filepath_Base key = "/" \/ no_separator (filepath_Base key) = true))
      (upload_destinations (snd (uploadHostPackageTrust w p h)))
    /\ List.length (upload_destinations (snd (uploadHostPackageTrust w p h)))
         <= List.length (Keys (config p)).
Proof.
  intros w p h. split.
  - pose proof (uploadHostPackageTrust_key_events w p h) as Hev.
    induction Hev as [|e t He Ht IH]; [constructor|].
    destruct e; cbn [upload_destinations]; try exact IH.
    constructor; [|exact IH].
    cbn in He. destruct He as (key & Hin & ->).
    exists key. split; [exact Hin|]. split; [reflexivity|].
    apply filepath_Base_element.
  - destruct (uploadHostPackageTrust_run w p h) as (r & t & Heq & Hrun).
    rewrite Heq. cbn [snd].
    rewrite upload_destinations_app, closes_upload_nothing, app_nil_r.
    exact (trust_run_upload_count _ _ _ Hrun).
Qed.

(** ** Local errors of the cache steps *)

(** When [os.Stat] on the cache directory fails for another reason than
    the absence of the directory, the cache upload and the cache update
    both return that error at once: no transfer, no temporary directory and
    no message to the user. *)
Theorem cache_dir_stat_error :
  forall (w : World) (p : Provisioner) (h1 h7 : history) (e1 e7 : error),
    world_Stat w h1 (CacheDir (config p)) = Err e1 ->
    os_IsNotExist (Some e1) = false ->
    world_Stat w h7 (CacheDir (config p)) = Err e7 ->
    os_IsNotExist (Some e7) = false ->
    uploadHostPackageCache w p h1 =
      (Some e1, [os_Stat_ev (CacheDir (config p)) (Err e1)])
    /\
    updateCache w p h7 =
      (Some e7, [os_Stat_ev (CacheDir (config p)) (Err e7)]).
Proof.
  intros w p h1 h7 e1 e7 Hstat1 Hne1 Hstat7 Hne7. split.
  - unfold uploadHostPackageCache, bind, os_Stat, call.
    rewrite Hstat1, Hne1. reflexivity.
  - unfold updateCache, bind, os_Stat, call.
    rewrite Hstat7, Hne7. reflexivity.
Qed.

Lemma cache_dir_stat_error_witness :
  uploadHostPackageCache (with_unreadable "/var/cache/apt/archives" debian_host)
    curl_only [] =
    (Some (eacces "/var/cache/apt/archives"),
     [os_Stat_ev "/var/cache/apt/archives" (Err (eacces "/var/cache/apt/archives"))])
  /\
  updateCache (with_unreadable "/var/cache/apt/archives" debian_host) curl_only [] =
    (Some (eacces "/var/cache/apt/archives"),
     [os_Stat_ev "/var/cache/apt/archives" (Err (eacces "/var/cache/apt/archives"))]).
Proof.
  apply (cache_dir_stat_error
           (with_unreadable "/var/cache/apt/archives" debian_host) curl_only [] []
           (eacces "/var/cache/apt/archives") (eacces "/var/cache/apt/archives"));
    reflexivity.
Defined.

(** When the temporary directory cannot be made, the cache update tells
    the user and returns the error of [ioutil.TempDir]; it downloads
    nothing and removes nothing. *)
Theorem updateCache_tempdir_error :
  forall (w : World) (p : Provisioner) (h : history) (cache : FileInfo) (e : error),
    world_Stat w h (CacheDir (config p)) = Ok cache ->
    world_MkTempDir w (h ++ [os_Stat_ev (CacheDir (config p)) (Ok cache)])%list
      (world_TempDir w) "archives-" = Err e ->
    updateCache w p h =
      (Some e,
       [os_Stat_ev (CacheDir (config p)) (Ok cache);
        ioutil_TempDir_ev (world_TempDir w) "archives-" (Err e);
        ui_Error "APT cache update: failed to create tempdir"]).
Proof.
  intros w p h cache e Hstat Hmk.
  unfold updateCache, bind, os_Stat, ioutil_TempDir, os_TempDir, call.
  rewrite Hstat, Hmk. reflexivity.
Qed.

Lemma updateCache_tempdir_error_witness :
  updateCache (failing_tempdir debian_host) curl_only [] =
    (Some (mkError "/tmp: no space left on device" false),
     [os_Stat_ev "/var/cache/apt/archives" (Ok (mkFileInfo "/var/cache/apt/archives" true));
      ioutil_TempDir_ev "/tmp" "archives-"
        (Err (mkError "/tmp: no space left on device" false));
      ui_Error "APT cache update: failed to create tempdir"]).
Proof.
  exact (updateCache_tempdir_error (failing_tempdir debian_host) curl_only []
           (mkFileInfo "/var/cache/apt/archives" true)
           (mkError "/tmp: no space left on device" false) eq_refl eq_refl).
Defined.
